(** * A task board with drag and drop: the store, the views and the validation helper

    A shallow embedding of the TypeScript sources

      - [src/unnamed/part_000]  (single-file version: [ProjectState], [validate],
        [Component], [ProjectItem], [ProjectList], [ProjectInput]),
      - [src/src/app.ts]        (an earlier copy of [validate] and [ProjectInput]),
      - [src/src/components/project-list.ts] and
        [src/src/components/project-item.ts] (the drag and drop handlers),

    and the properties that the specification states about them.

    Modelling conventions.
      - A JavaScript string is a [string]; every [ascii] stands for one code
        unit below 256, so that [String.length] is the [length] property.
      - A JavaScript number is an element of an abstract type, see [JSNumber].
      - Arrays and [Project] objects live in a [Heap] and are handled by
        address, because the store hands copies of its array to its listeners
        and the objects in these copies are shared.
      - [Math.random()] is an argument of the operation that calls it. *)

From Stdlib Require Import Ascii String ZArith DecimalString.
From stdpp Require Import base option list strings.

Open Scope string_scope.
Open Scope nat_scope.
Open Scope list_scope.

(** ** Strings *)

Module JSString.

(** White space and line terminators below 256, the characters that
    [String.prototype.trim] strips: TAB, LF, VT, FF, CR, SP and NBSP. *)
Definition is_white_space (c : ascii) : bool :=
  let n := nat_of_ascii c in
  ((9 <=? n) && (n <=? 13)) || (n =? 32) || (n =? 160).

Fixpoint trimStart (s : string) : string :=
  match s with
  | EmptyString => EmptyString
  | String c r => if is_white_space c then trimStart r else s
  end.

Fixpoint trimEnd (s : string) : string :=
  match s with
  | EmptyString => EmptyString
  | String c r =>
      match trimEnd r with
      | EmptyString => if is_white_space c then EmptyString else String c EmptyString
      | r' => String c r'
      end
  end.

Definition trim (s : string) : string := trimEnd (trimStart s).

(** [s.trim().length === 0] *)
Definition blank (s : string) : bool := (String.length (trim s) =? 0)%nat.

End JSString.
Import JSString.

(** ** Numbers

    The sources compare numbers ([>=], [<=], [===]), print them
    ([toString], template literals), read them from text (unary plus) and
    take them from string lengths and literals. Nothing else is used, so the
    development is parametric in a type with these operations. *)

Class JSNumber := {
  number : Type;
  num_geb : number -> number -> bool;
  num_leb : number -> number -> bool;
  num_eqb : number -> number -> bool;
  num_of_nat : nat -> number;
  num_of_string : string -> number;
  num_toString : number -> string
}.

(** The text of a number is never blank: it is made of digits, a sign, a
    point, an exponent, or is [NaN] or [Infinity]. The properties that depend
    on this fact say so. *)
Definition toString_never_blank `{JSNumber} : Prop :=
  forall n, blank (num_toString n) = false.

(** The integers with [NaN] ([None]): the numbers that the people field of
    the form produces from decimal integer text. This instance is used at
    such values only. It is not the numbers of the language: [of_string]
    reads a sign and decimal digits and gives [NaN] for every other text,
    also for the fractions, exponents, hexadecimal literals and [Infinity]
    that unary plus reads; [toString] prints every integer in full, where
    the language rounds above 2^53 and prints an exponent from 10^21 on. The
    properties that are stated for every [JSNumber] do not depend on it. *)
Module IntNumber.

Definition t : Type := option Z.

Definition geb (a b : t) : bool :=
  match a, b with Some x, Some y => (y <=? x)%Z | _, _ => false end.

Definition leb (a b : t) : bool :=
  match a, b with Some x, Some y => (x <=? y)%Z | _, _ => false end.

Definition eqb (a b : t) : bool :=
  match a, b with Some x, Some y => (x =? y)%Z | _, _ => false end.

Definition of_nat (n : nat) : t := Some (Z.of_nat n).

Definition of_string (s : string) : t :=
  match trim s with
  | EmptyString => Some 0%Z
  | String "+"%char r =>
      match NilZero.uint_of_string r with
      | Some u => Some (Z.of_N (N.of_uint u))
      | None => None
      end
  | s' =>
      match NilZero.int_of_string s' with
      | Some i => Some (Z.of_int i)
      | None => None
      end
  end.

Definition toString (a : t) : string :=
  match a with
  | Some z => NilZero.string_of_int (Z.to_int z)
  | None => "NaN"
  end.

End IntNumber.

Definition IntNumber_JSNumber : JSNumber := {|
  number := IntNumber.t;
  num_geb := IntNumber.geb;
  num_leb := IntNumber.leb;
  num_eqb := IntNumber.eqb;
  num_of_nat := IntNumber.of_nat;
  num_of_string := IntNumber.of_string;
  num_toString := IntNumber.toString
|}.

(** ** The validation helper: [validate]

    [src/unnamed/part_000], lines 59 to 86, and [src/src/app.ts], lines 1 to
    28; the two copies are the same text. *)

Section Validation.
Context `{JSNumber}.

(** [string | number] *)
Inductive Value :=
| VString (s : string)
| VNumber (n : number).

(** The optional fields are [None] when absent. *)
Record Validatable := mkValidatable {
  value : Value;
  required : option bool;
  minLength : option number;
  maxLength : option number;
  min : option number;
  max : option number
}.

(** [input.value.toString()] *)
Definition toString (v : Value) : string :=
  match v with
  | VString s => s
  | VNumber n => num_toString n
  end.

(** The test [if (input.required)] on an optional boolean. *)
Definition truthy (b : option bool) : bool :=
  match b with
  | Some true => true
  | _ => false
  end.

Definition validate (input : Validatable) : bool :=
  let isValid := true in
  let isValid :=
    if truthy (required input)
    then isValid && (String.length (trim (toString (value input))) =? 0)
    else isValid in
  let isValid :=
    match minLength input, value input with
    | Some m, VString s => isValid && num_geb (num_of_nat (String.length s)) m
    | _, _ => isValid
    end in
  let isValid :=
    match maxLength input, value input with
    | Some m, VString s => isValid && num_leb (num_of_nat (String.length s)) m
    | _, _ => isValid
    end in
  let isValid :=
    match min input, value input with
    | Some m, VNumber n => isValid && num_geb n m
    | _, _ => isValid
    end in
  let isValid :=
    match max input, value input with
    | Some m, VNumber n => isValid && num_leb n m
    | _, _ => isValid
    end in
  isValid.

(** What the specification asks of a value: every constraint that is
    present holds, [required] meaning that the text of the value is not
    blank, the length bounds bearing on strings and the numeric bounds on
    numbers. (This definition follows the specification; [validate] above
    follows the source.) *)
Definition satisfies_constraints (input : Validatable) : bool :=
  (if truthy (required input) then negb (blank (toString (value input))) else true)
  && match minLength input, value input with
     | Some m, VString s => num_geb (num_of_nat (String.length s)) m
     | _, _ => true
     end
  && match maxLength input, value input with
     | Some m, VString s => num_leb (num_of_nat (String.length s)) m
     | _, _ => true
     end
  && match min input, value input with
     | Some m, VNumber n => num_geb n m
     | _, _ => true
     end
  && match max input, value input with
     | Some m, VNumber n => num_leb n m
     | _, _ => true
     end.

(** The three inputs that [gatherUserInput] builds
    ([src/unnamed/part_000], lines 203 to 217). *)
Definition titleValidatable (title : string) : Validatable :=
  {| value := VString title; required := Some true;
     minLength := None; maxLength := None; min := None; max := None |}.

Definition descriptionValidatable (description : string) : Validatable :=
  {| value := VString description; required := Some true;
     minLength := Some (num_of_nat 5); maxLength := None;
     min := None; max := None |}.

Definition peopleValidatable (people : string) : Validatable :=
  {| value := VNumber (num_of_string people); required := Some true;
     minLength := None; maxLength := None;
     min := Some (num_of_nat 0); max := Some (num_of_nat 10) |}.

End Validation.

(** ** Projects and the heap *)

(** [enum ProjectStatus { Active, Finished }] *)
Inductive ProjectStatus := Active | Finished.

Definition status_eqb (a b : ProjectStatus) : bool :=
  match a, b with
  | Active, Active | Finished, Finished => true
  | _, _ => false
  end.

(** Addresses of arrays and of objects. *)
Abbreviation addr := nat (only parsing).

Section Heap.
Context `{JSNumber}.

(** [class Project] *)
Record Project := mkProject {
  id : string;
  title : string;
  description : string;
  people : number;
  status : ProjectStatus
}.

(** [Project] objects and arrays of references to them. An address is an
    index; allocation appends. Nothing is ever freed. *)
Record Heap := mkHeap {
  objects : list Project;
  arrays : list (list addr)
}.

(** The elements of the array at [a]. *)
Definition contents (a : addr) (h : Heap) : list addr :=
  default [] (arrays h !! a).

(** The objects that the elements of the array at [a] refer to. *)
Definition items (a : addr) (h : Heap) : list Project :=
  omap (fun o => objects h !! o) (contents a h).

(** [new Project(...)] *)
Definition new_object (p : Project) (h : Heap) : addr * Heap :=
  (length (objects h), mkHeap (objects h ++ [p]) (arrays h)).

(** An array literal, or the result of [slice] and [filter]. *)
Definition new_array (xs : list addr) (h : Heap) : addr * Heap :=
  (length (arrays h), mkHeap (objects h) (arrays h ++ [xs])).

(** A change of the elements of the array at [a]: an assignment to an
    index or to [length], [push], [pop], [splice], [sort], ... *)
Definition update (a : addr) (g : list addr -> list addr) (h : Heap) : Heap :=
  mkHeap (objects h) (alter g a (arrays h)).

(** [a.push(x)] *)
Definition push (a : addr) (x : addr) (h : Heap) : Heap :=
  update a (fun xs => xs ++ [x]) h.

(** [a.slice()] *)
Definition slice (a : addr) (h : Heap) : addr * Heap :=
  new_array (contents a h) h.

(** The object [pr] with another status: the other fields as they are. *)
Definition with_status (s : ProjectStatus) (pr : Project) : Project :=
  mkProject (id pr) (title pr) (description pr) (people pr) s.

(** [o.status = s] *)
Definition set_status (o : addr) (s : ProjectStatus) (h : Heap) : Heap :=
  mkHeap (alter (with_status s) o (objects h)) (arrays h).

(** The array at [a] holds references to objects of the heap only. *)
Definition closed (a : addr) (h : Heap) : Prop :=
  Forall (fun o => o < length (objects h)) (contents a h).

End Heap.

(** ** The store: [State] and [ProjectState]

    [src/unnamed/part_000], lines 13 to 57. The world outside the heap (the
    views and the page) is a type [W]. A listener is a function of the
    array it is called with; it can change the heap and the world. The store
    itself is not part of what a listener can reach: a listener does not call
    back into the store. *)

Section Store.
Context `{JSNumber}.
Variable W : Type.

(** [type Listener<T> = (items: T[]) => void] *)
Definition Listener : Type := addr -> Heap * W -> Heap * W.

(** The fields [listeners] and [projects]. The array of projects is in the
    heap; the array of listeners never leaves the store and is a list. *)
Record ProjectState := mkProjectState {
  listeners : list Listener;
  projects : addr
}.

(** One call of a listener, as the store makes it: which listener, with
    which array, and the heap at that moment. *)
Record Call := mkCall {
  callee : Listener;
  arg : addr;
  at_call : Heap
}.

(** [new ProjectState()]: both arrays are empty. *)
Definition newProjectState (h : Heap) : ProjectState * Heap :=
  let (a, h1) := new_array [] h in
  (mkProjectState [] a, h1).

(** [addListener] *)
Definition addListener (st : ProjectState) (listenerFunction : Listener)
  : ProjectState :=
  mkProjectState (listeners st ++ [listenerFunction]) (projects st).

(** The loop
    [for (const listenerFunction of this.listeners)
       listenerFunction(this.projects.slice())],
    with the calls it makes. *)
Fixpoint notify (ls : list Listener) (store : addr) (s : Heap * W)
  : Heap * W * list Call :=
  match ls with
  | [] => (s, [])
  | listenerFunction :: rest =>
      let (copy, h1) := slice store (fst s) in
      let s1 := listenerFunction copy (h1, snd s) in
      let (s2, calls) := notify rest store s1 in
      (s2, mkCall listenerFunction copy h1 :: calls)
  end.

(** [addProject]; [random] is the value of [Math.random()]. *)
Definition addProject (st : ProjectState) (random : number)
    (title description : string) (people : number) (s : Heap * W)
  : Heap * W * list Call :=
  let (newProject, h1) :=
    new_object (mkProject (num_toString random) title description people Active)
               (fst s) in
  let h2 := push (projects st) newProject h1 in
  notify (listeners st) (projects st) (h2, snd s).

(** A sequence of calls of [addProject], each with its random draw, title,
    description and number of people, and the calls of listeners that each
    one makes. *)
Definition project_of (c : number * string * string * number) : Project :=
  let '(random, title, description, people) := c in
  mkProject (num_toString random) title description people Active.

Fixpoint addProjects (st : ProjectState)
    (cs : list (number * string * string * number)) (s : Heap * W)
  : Heap * W * list (list Call) :=
  match cs with
  | [] => (s, [])
  | (random, title, description, people) :: rest =>
      let (s1, calls) := addProject st random title description people s in
      let (s2, log) := addProjects st rest s1 in
      (s2, calls :: log)
  end.

(** The first element of an array of projects whose [id] is [projectId]. *)
Definition find_project (projectId : string) (xs : list addr) (h : Heap)
  : option addr :=
  List.find
    (fun o => match objects h !! o with
              | Some p => String.eqb (id p) projectId
              | None => false
              end)
    xs.

(** Modelled from the spec: [moveProject] of the store, whose file
    (state/project-state.ts) is not among the sources; only its call in
    [dropHandler] is. The specification (4.2): it locates the item with the
    given identity; if none exists the call does nothing and notifies
    nobody; if found, it sets the status field of the item and calls every
    subscriber with a copy of the sequence, in registration order. *)
Definition moveProject (st : ProjectState) (projectId : string)
    (newStatus : ProjectStatus) (s : Heap * W)
  : Heap * W * list Call :=
  match find_project projectId (contents (projects st) (fst s)) (fst s) with
  | None => (s, [])
  | Some project =>
      notify (listeners st) (projects st)
             (set_status project newStatus (fst s), snd s)
  end.

(** The heap when [addProject] has made the object and pushed it, before
    it calls the listeners. *)
Definition pushed (st : ProjectState) (c : number * string * string * number)
    (h : Heap) : Heap :=
  push (projects st) (length (objects h)) (snd (new_object (project_of c) h)).

(** The states of a store: it starts empty, and then [addProject] and
    [moveProject] are called; in between, the page can change. *)
Inductive reachable (st : ProjectState) : Heap * W -> Prop :=
| reachable_empty s :
    projects st < length (arrays (fst s)) ->
    contents (projects st) (fst s) = [] ->
    reachable st s
| reachable_add s random title description people :
    reachable st s ->
    reachable st (fst (addProject st random title description people s))
| reachable_move s projectId newStatus :
    reachable st s ->
    reachable st (fst (moveProject st projectId newStatus s))
| reachable_page s w :
    reachable st s ->
    reachable st (fst s, w).

(** A listener leaves the array at [a] alone when, called with another
    array, it does not change the elements of [a]; it never frees an array
    and never changes a [Project] object (the views only read them). *)
Definition leaves_alone (a : addr) (f : Listener) : Prop :=
  forall x h w,
    x <> a -> a < length (arrays h) ->
    arrays (fst (f x (h, w))) !! a = arrays h !! a
    /\ length (arrays h) <= length (arrays (fst (f x (h, w))))
    /\ objects h `prefix_of` objects (fst (f x (h, w))).

(** What the store hands to a listener in a round that starts in the heap
    [h0], for the store array [a]: an array that did not exist at the start
    of the round and is the last one allocated when the call is made, with
    the elements that the store array had at the start of the round and
    still has at the call. *)
Definition handed_copy (a : addr) (h0 : Heap) (c : Call) : Prop :=
  length (arrays h0) <= arg c
  /\ S (arg c) = length (arrays (at_call c))
  /\ contents (arg c) (at_call c) = contents a h0
  /\ contents a (at_call c) = contents a h0
  /\ objects h0 `prefix_of` objects (at_call c).

(** What holds of every state of a store: its array is allocated and refers
    to objects of the heap, and no item has the empty id. *)
Definition store_inv (st : ProjectState) (s : Heap * W) : Prop :=
  projects st < length (arrays (fst s))
  /\ closed (projects st) (fst s)
  /\ Forall (fun pr => id pr <> "") (items (projects st) (fst s)).

(** One call of a listener by the store: the listener gets a new copy of
    the array of the store and runs on the heap that has this copy. *)
Definition call_with_copy (a : addr) (s : Heap * W) (f : Listener) : Heap * W :=
  f (fst (slice a (fst s))) (snd (slice a (fst s)), snd s).

(** The listeners called one after another, each on the state that the one
    before has left. *)
Definition call_all (ls : list Listener) (a : addr) (s : Heap * W) : Heap * W :=
  fold_left (call_with_copy a) ls s.

End Store.

Arguments listeners {_ _} _.
Arguments projects {_ _} _.
Arguments callee {_ _} _.
Arguments arg {_ _} _.
Arguments at_call {_ _} _.
Arguments notify {_ _} _ _ _.
Arguments addProject {_ _} _ _ _ _ _ _.
Arguments moveProject {_ _} _ _ _ _.
Arguments addProjects {_ _} _ _ _.
Arguments find_project {_} _ _ _.
Arguments pushed {_ _} _ _ _.
Arguments reachable {_ _} _ _.
Arguments handed_copy {_ _} _ _ _.
Arguments store_inv {_ _} _ _.
Arguments call_with_copy {_ _} _ _ _.
Arguments call_all {_ _} _ _ _.
Arguments addListener {_ _} _ _.
Arguments newProjectState {_ _} _.
Arguments leaves_alone {_ _} _ _.

(** ** The drag payload of the platform

    A [DataTransfer] is its list of items, a format and a text each, in the
    order in which they were added, and the allowed effect. [types] lists the
    formats; [getData] of a format that is not there is the empty string;
    [setData] replaces the item of the format and puts the new one last. *)

Record DataTransfer := mkDataTransfer {
  data : list (string * string);
  effectAllowed : string
}.

Record DragEvent := mkDragEvent {
  dataTransfer : option DataTransfer;
  defaultPrevented : bool
}.

Definition types (dt : DataTransfer) : list string := map fst (data dt).

(** The first of the types that the payload of an event lists, if any. *)
Definition first_type (event : DragEvent) : option string :=
  match dataTransfer event with
  | Some dt => types dt !! 0
  | None => None
  end.

Definition getData (format : string) (dt : DataTransfer) : string :=
  match List.find (fun item => String.eqb (fst item) format) (data dt) with
  | Some item => snd item
  | None => ""
  end.

Definition setData (format text : string) (dt : DataTransfer) : DataTransfer :=
  mkDataTransfer
    (List.filter (fun item => negb (String.eqb (fst item) format)) (data dt)
       ++ [(format, text)])
    (effectAllowed dt).

Definition set_effectAllowed (effect : string) (dt : DataTransfer) : DataTransfer :=
  mkDataTransfer (data dt) effect.

Definition preventDefault (event : DragEvent) : DragEvent :=
  mkDragEvent (dataTransfer event) true.

(** [classList.add] and [classList.remove] *)
Definition classList_add (c : string) (cl : list string) : list string :=
  if existsb (String.eqb c) cl then cl else cl ++ [c].

Definition classList_remove (c : string) (cl : list string) : list string :=
  List.filter (fun c' => negb (String.eqb c c')) cl.

(** ** The views

    The page holds the input form and the two lists that the last lines of
    [src/unnamed/part_000] construct. Every list owns its [ul] element; the
    lookups [document.getElementById(`${type}-projects-list`)] and
    [document.getElementById(hostId)] of [renderProjects] and of the
    constructor of [Component] find this element, whose id [renderContent]
    has set. A failed lookup of the DOM (a [TypeError]) has no place in the
    model. The calls of [console.log] are left out. *)

(** ['active' | 'finished'] *)
Inductive ListType := active | finished.

Definition type_name (type : ListType) : string :=
  match type with
  | active => "active"
  | finished => "finished"
  end.

(** [type.toUpperCase()] *)
Definition type_name_upper (type : ListType) : string :=
  match type with
  | active => "ACTIVE"
  | finished => "FINISHED"
  end.

Section Views.
Context `{JSNumber}.

(** *** [ProjectItem], [src/src/components/project-item.ts] *)

(** The [li] element of an item, with the texts of its [h2], [h3] and [p]. *)
Record Li := mkLi {
  li_id : string;
  h2 : string;
  h3 : string;
  p : string
}.

Record ProjectItem := mkProjectItem {
  project : addr;
  element : Li
}.

(** [get persons()] *)
Definition persons (pr : Project) : string :=
  if num_eqb (people pr) (num_of_nat 1)
  then "1 person"
  else num_toString (people pr) +:+ " persons".

(** The constructor: the [li] of the template (which has no id) gets
    [project.id] as its id when this is not the empty string, and
    [renderContent] fills in the texts. This is the item of
    [src/src/components/project-item.ts], which the lists of
    [src/src/components/project-list.ts] construct; the earlier
    [ProjectItem] of [src/unnamed/part_000] differs in the text of [h3]
    only, which there is [people.toString()]. *)
Definition newLi (pr : Project) : Li :=
  mkLi (if String.eqb (id pr) "" then "" else id pr)
       (title pr)
       (persons pr +:+ " assigned")
       (description pr).

(** [dragStartHandler]; [None] is the [TypeError] of
    [event.dataTransfer!] on [null]. *)
Definition dragStartHandler (this : ProjectItem) (h : Heap) (event : DragEvent)
  : option DragEvent :=
  match dataTransfer event, objects h !! project this with
  | Some dt, Some pr =>
      Some (mkDragEvent
              (Some (set_effectAllowed "move" (setData "text/plain" (id pr) dt)))
              (defaultPrevented event))
  | _, _ => None
  end.

(** [dragEndHandler] *)
Definition dragEndHandler (this : ProjectItem) (event : DragEvent) : DragEvent :=
  event.

(** *** [ProjectList], [src/src/components/project-list.ts] *)

Record Ul := mkUl {
  ul_id : string;
  classList : list string;
  children : list ProjectItem
}.

Record ProjectList := mkProjectList {
  assignedProjects : addr;
  heading : string;
  ul : Ul
}.

(** *** [ProjectInput]: the values of the three fields of the form *)
Record ProjectInput := mkProjectInput {
  titleInputElement : string;
  descriptionInputElement : string;
  peopleInputElement : string
}.

Record Page := mkPage {
  projectInput : ProjectInput;
  activeProjectList : ProjectList;
  finishedProjectList : ProjectList;
  alerts : list string
}.

Definition get_list (type : ListType) (page : Page) : ProjectList :=
  match type with
  | active => activeProjectList page
  | finished => finishedProjectList page
  end.

Definition set_list (type : ListType) (l : ProjectList) (page : Page) : Page :=
  match type with
  | active => mkPage (projectInput page) l (finishedProjectList page) (alerts page)
  | finished => mkPage (projectInput page) (activeProjectList page) l (alerts page)
  end.

Definition set_ul (u : Ul) (l : ProjectList) : ProjectList :=
  mkProjectList (assignedProjects l) (heading l) u.

(** The item view of the object at [o], if there is one. *)
Definition item_view (h : Heap) (o : addr) : option ProjectItem :=
  match objects h !! o with
  | Some pr => Some (mkProjectItem o (newLi pr))
  | None => None
  end.

(** [new ProjectItem(hostId, projectItem)]: the new element goes to the
    end of its host. *)
Definition newProjectItem (host : Ul) (projectItem : addr) (h : Heap) : Ul :=
  match objects h !! projectItem with
  | Some pr =>
      mkUl (ul_id host) (classList host)
           (children host ++ [mkProjectItem projectItem (newLi pr)])
  | None => host
  end.

(** [renderProjects] *)
Definition renderProjects (type : ListType) (h : Heap) (page : Page) : Page :=
  let this := get_list type page in
  let listElement := mkUl (ul_id (ul this)) (classList (ul this)) [] in
  let listElement :=
    fold_left (fun host projectItem => newProjectItem host projectItem h)
              (contents (assignedProjects this) h) listElement in
  set_list type (set_ul listElement this) page.

(** The status of a project is the one of the lists of this type. *)
Definition matches (type : ListType) (pr : Project) : bool :=
  match type with
  | active => status_eqb (status pr) Active
  | finished => status_eqb (status pr) Finished
  end.

(** The test of the [filter] in [configure]. *)
Definition relevant (type : ListType) (h : Heap) (proj : addr) : bool :=
  match objects h !! proj with
  | Some pr =>
      match type with
      | active => status_eqb (status pr) Active
      | finished => status_eqb (status pr) Finished
      end
  | None => false
  end.

(** The listener that [configure] registers with the store. *)
Definition listListener (type : ListType) : Listener Page :=
  fun projects s =>
    let (relevantProjects, h1) :=
      new_array (List.filter (relevant type (fst s)) (contents projects (fst s)))
                (fst s) in
    let this := get_list type (snd s) in
    let page1 :=
      set_list type (mkProjectList relevantProjects (heading this) (ul this))
               (snd s) in
    (h1, renderProjects type h1 page1).

(** [dragOverHandler] *)
Definition dragOverHandler (type : ListType) (event : DragEvent) (page : Page)
  : DragEvent * Page :=
  match dataTransfer event with
  | Some dt =>
      match types dt !! 0 with
      | Some first =>
          if String.eqb first "text/plain"
          then
            let this := get_list type page in
            let listElement :=
              mkUl (ul_id (ul this))
                   (classList_add "droppable" (classList (ul this)))
                   (children (ul this)) in
            (preventDefault event, set_list type (set_ul listElement this) page)
          else (event, page)
      | None => (event, page)
      end
  | None => (event, page)
  end.

(** [this.type == 'active' ? ProjectStatus.Active : ProjectStatus.Finished] *)
Definition status_of (type : ListType) : ProjectStatus :=
  match type with
  | active => Active
  | finished => Finished
  end.

(** [dropHandler], for any store: [moveProject] is the operation of the
    store that the handler calls. The result has the event as the handler
    leaves it. [None] is the [TypeError] of [event.dataTransfer!] on [null]. *)
Definition dropHandler {S R : Type}
    (moveProject : string -> ProjectStatus -> S -> R)
    (type : ListType) (event : DragEvent) (s : S) : option (DragEvent * R) :=
  match dataTransfer event with
  | Some dt =>
      let projectId := getData "text/plain" dt in
      Some (event, moveProject projectId (status_of type) s)
  | None => None
  end.

(** [dragLeaveHandler] *)
Definition dragLeaveHandler (type : ListType) (event : DragEvent) (page : Page)
  : Page :=
  let this := get_list type page in
  let listElement :=
    mkUl (ul_id (ul this))
         (classList_remove "droppable" (classList (ul this)))
         (children (ul this)) in
  set_list type (set_ul listElement this) page.

(** *** [ProjectInput], [src/unnamed/part_000], lines 177 to 247 *)

Definition alert (message : string) (page : Page) : Page :=
  mkPage (projectInput page) (activeProjectList page)
         (finishedProjectList page) (alerts page ++ [message]).

(** [gatherUserInput]: [None] is the return without a value. *)
Definition gatherUserInput (page : Page)
  : option (string * string * number) * Page :=
  let title := titleInputElement (projectInput page) in
  let description := descriptionInputElement (projectInput page) in
  let people := peopleInputElement (projectInput page) in
  if validate (titleValidatable title)
     || validate (descriptionValidatable description)
     || validate (peopleValidatable people)
  then (None, alert "Invalid input, please try again!" page)
  else (Some (title, description, num_of_string people), page).

Definition clearInputs (page : Page) : Page :=
  mkPage (mkProjectInput "" "" "") (activeProjectList page)
         (finishedProjectList page) (alerts page).

(** [submitHandler]; [random] is the value that [addProject] draws. *)
Definition submitHandler (st : ProjectState Page) (random : number)
    (s : Heap * Page) : Heap * Page * list (Call Page) :=
  let (userInput, page1) := gatherUserInput (snd s) in
  match userInput with
  | Some (title, description, people) =>
      let '(h2, page2, calls) :=
        addProject st random title description people (fst s, page1) in
      (h2, clearInputs page2, calls)
  | None => (fst s, page1, [])
  end.

(** *** The page as the last lines of the file build it

    [ProjectState.getInstance()], [new ProjectInput()],
    [new ProjectList('active')], [new ProjectList('finished')]. *)

Definition newProjectList (type : ListType) (st : ProjectState Page) (h : Heap)
  : ProjectList * ProjectState Page * Heap :=
  let (assigned, h1) := new_array [] h in
  let st1 := addListener st (listListener type) in
  (mkProjectList assigned
     (type_name_upper type +:+ " PROJECTS")
     (mkUl (type_name type +:+ "-projects-list") [] []),
   st1, h1).

Definition bootstrap : ProjectState Page * (Heap * Page) :=
  let (st0, h0) := newProjectState (mkHeap [] []) in
  let input := mkProjectInput "" "" "" in
  let '(activeList, st1, h1) := newProjectList active st0 h0 in
  let '(finishedList, st2, h2) := newProjectList finished st1 h1 in
  (st2, (h2, mkPage input activeList finishedList [])).

End Views.

(** ** The singleton and the attachment of components

    [src/unnamed/part_000], lines 25 to 37 and 93 to 110. *)

(** [attach]: [insertAdjacentElement('afterbegin', element)] makes the
    element the first child of the host, ['beforeend'] the last. *)
Definition attach {A : Type} (insertAtStart : bool) (element : A)
    (children : list A) : list A :=
  if insertAtStart then element :: children else children ++ [element].

(** A sequence of constructions of components on one host, each with its
    [insertAtStart] and the element it attaches. *)
Definition attach_all {A : Type} (constructions : list (bool * A))
    (children : list A) : list A :=
  fold_left (fun host c => attach (fst c) (snd c) host) constructions children.

Section Singleton.
Context `{JSNumber} {W : Type}.

(** [ProjectState.getInstance]; [instance] is the static field, [None]
    before the first call, with the state of the one store object. The
    result is the store, the static field and the heap. *)
Definition getInstance (instance : option (ProjectState W)) (h : Heap)
  : ProjectState W * (option (ProjectState W) * Heap) :=
  match instance with
  | Some st => (st, (instance, h))
  | None =>
      let (st, h1) := newProjectState h in
      (st, (Some st, h1))
  end.

End Singleton.

(** ** The board with integer numbers

    The page as the program builds it, with [IntNumber]. *)

Section BoardDefinitions.
Local Existing Instance IntNumber_JSNumber.

(** The store and the state after the construction of the views. *)
Definition board : ProjectState Page := fst bootstrap.
Definition start : Heap * Page := snd bootstrap.

(** The form filled in. *)
Definition fill (title description people : string) (s : Heap * Page)
  : Heap * Page :=
  (fst s,
   mkPage (mkProjectInput title description people)
          (activeProjectList (snd s)) (finishedProjectList (snd s))
          (alerts (snd s))).

(** The state after one project has been added. *)
Definition one_project : Heap * Page :=
  fst (addProject board (Some 0%Z) "Build API" "Implement REST endpoints"
                  (Some 3%Z) start).

End BoardDefinitions.

(** * Properties *)

(** ** Strings and numbers *)

Lemma trim_cons_not_white (c : ascii) (r : string) :
  is_white_space c = false ->
  exists r', trim (String c r) = String c r'.
Proof.
  intros Hc. unfold trim. simpl. rewrite Hc. simpl.
  destruct (trimEnd r) as [|c' r'] eqn:E.
  - rewrite Hc. eauto.
  - eauto.
Qed.

Lemma blank_cons_not_white (c : ascii) (r : string) :
  is_white_space c = false -> blank (String c r) = false.
Proof.
  intros Hc. destruct (trim_cons_not_white c r Hc) as [r' E].
  unfold blank. rewrite E. reflexivity.
Qed.

Lemma blank_empty : blank "" = true.
Proof. reflexivity. Qed.

Lemma IntNumber_toString_never_blank :
  @toString_never_blank IntNumber_JSNumber.
Proof.
  intros a. cbn [num_toString IntNumber_JSNumber].
  destruct a as [z|]; [|reflexivity].
  unfold IntNumber.toString.
  destruct (Z.to_int z) as [d|d]; simpl.
  - destruct d; apply blank_cons_not_white; reflexivity.
  - apply blank_cons_not_white; reflexivity.
Qed.


(** ** [validate] *)

Section ValidationProperties.
Context `{JSNumber}.

(** [validate] as one conjunction: the bounds are those of the
    specification, the [required] test is the blank test itself. *)
Lemma validate_unfold (input : Validatable) :
  validate input =
    (if truthy (required input) then blank (toString (value input)) else true)
    && match minLength input, value input with
       | Some m, VString s => num_geb (num_of_nat (String.length s)) m
       | _, _ => true
       end
    && match maxLength input, value input with
       | Some m, VString s => num_leb (num_of_nat (String.length s)) m
       | _, _ => true
       end
    && match min input, value input with
       | Some m, VNumber n => num_geb n m
       | _, _ => true
       end
    && match max input, value input with
       | Some m, VNumber n => num_leb n m
       | _, _ => true
       end.
Proof.
  unfold validate, blank.
  destruct (truthy (required input)), (minLength input), (maxLength input),
    (min input), (max input), (value input);
    simpl; rewrite ?andb_true_r; reflexivity.
Qed.

(** Without [required], [validate] is what the specification asks. *)
Lemma validate_not_required (input : Validatable) :
  truthy (required input) = false ->
  validate input = satisfies_constraints input.
Proof.
  intros Hr. rewrite validate_unfold. unfold satisfies_constraints.
  rewrite Hr. reflexivity.
Qed.

(** With [required], a value passes only if its text is blank. *)
Lemma validate_required_blank (input : Validatable) :
  truthy (required input) = true ->
  validate input = true ->
  blank (toString (value input)) = true.
Proof.
  intros Hr. rewrite validate_unfold, Hr.
  rewrite !andb_true_iff. tauto.
Qed.

(** A required number never passes. *)
Lemma validate_required_number (input : Validatable) (n : number) :
  toString_never_blank ->
  truthy (required input) = true ->
  value input = VNumber n ->
  validate input = false.
Proof.
  intros Hblank Hr Hv. rewrite validate_unfold, Hr, Hv. simpl.
  rewrite Hblank. reflexivity.
Qed.

(** C1, at the inputs of the scenario where the source departs from it:
    [validate({value: "", required: true})] is [true], and
    [validate({value: "hello", required: true, minLength: 3})] is [false].
    The claim has [false] and [true]: the test of [required] in the source
    is [trim().length === 0], which holds of the blank values. *)
Theorem validate_required_is_inverted :
  validate (mkValidatable (VString "") (Some true) None None None None) = true
  /\ validate (mkValidatable (VString "hello") (Some true)
                 (Some (num_of_nat 3)) None None None) = false
  /\ satisfies_constraints
       (mkValidatable (VString "") (Some true) None None None None) = false.
Proof. repeat split; reflexivity. Qed.

(** C10. The length bounds play no part for a number and the numeric
    bounds none for a string; an input whose present bounds are all of the
    other kind, with [required] absent or [false], passes. *)
Theorem validate_bounds_by_type :
  (forall n req ml xl mn mx,
      validate (mkValidatable (VNumber n) req ml xl mn mx)
      = validate (mkValidatable (VNumber n) req None None mn mx))
  /\ (forall s req ml xl mn mx,
      validate (mkValidatable (VString s) req ml xl mn mx)
      = validate (mkValidatable (VString s) req ml xl None None))
  /\ (forall n ml xl,
      validate (mkValidatable (VNumber n) None ml xl None None) = true
      /\ validate (mkValidatable (VNumber n) (Some false) ml xl None None) = true)
  /\ (forall s mn mx,
      validate (mkValidatable (VString s) None None None mn mx) = true
      /\ validate (mkValidatable (VString s) (Some false) None None mn mx) = true).
Proof.
  repeat split; intros; unfold validate; simpl;
    repeat match goal with
           | |- context [match ?o with Some _ => _ | None => _ end] => destruct o
           end; reflexivity.
Qed.

End ValidationProperties.

(** ** The input form *)

Section InputProperties.
Context `{JSNumber}.
Hypothesis number_text : toString_never_blank.

Lemma validate_titleValidatable (title : string) :
  validate (titleValidatable title) = blank title.
Proof. rewrite validate_unfold. simpl. rewrite !andb_true_r. reflexivity. Qed.

Lemma validate_descriptionValidatable (description : string) :
  validate (descriptionValidatable description)
  = blank description
    && num_geb (num_of_nat (String.length description)) (num_of_nat 5).
Proof. rewrite validate_unfold. simpl. rewrite !andb_true_r. reflexivity. Qed.

Lemma validate_peopleValidatable (people : string) :
  validate (peopleValidatable people) = false.
Proof.
  apply validate_required_number with (n := num_of_string people);
    [exact number_text|reflexivity|reflexivity].
Qed.

(** The form refuses a submission exactly when the title is blank, or the
    description is blank and at least five characters long. *)
Lemma gatherUserInput_refuses (page : Page) :
  let title := titleInputElement (projectInput page) in
  let description := descriptionInputElement (projectInput page) in
  let people := peopleInputElement (projectInput page) in
  gatherUserInput page =
    if blank title
       || (blank description
           && num_geb (num_of_nat (String.length description)) (num_of_nat 5))
    then (None, alert "Invalid input, please try again!" page)
    else (Some (title, description, num_of_string people), page).
Proof.
  unfold gatherUserInput.
  rewrite validate_titleValidatable, validate_descriptionValidatable,
    validate_peopleValidatable, orb_false_r.
  reflexivity.
Qed.

(** A submission that meets the three constraints of the specification is
    handed to [addProject]. *)
Lemma submitHandler_commits_valid st random h (page : Page) :
  let title := titleInputElement (projectInput page) in
  let description := descriptionInputElement (projectInput page) in
  let people := peopleInputElement (projectInput page) in
  satisfies_constraints (titleValidatable title) = true ->
  satisfies_constraints (descriptionValidatable description) = true ->
  satisfies_constraints (peopleValidatable people) = true ->
  submitHandler st random (h, page) =
    let '(h2, page2, calls) :=
      addProject st random title description (num_of_string people) (h, page) in
    (h2, clearInputs page2, calls).
Proof.
  intros title description people Ht Hd _.
  unfold submitHandler. simpl snd. rewrite gatherUserInput_refuses.
  unfold satisfies_constraints in Ht, Hd. simpl in Ht, Hd.
  rewrite !andb_true_r in Ht. rewrite !andb_true_r in Hd.
  apply andb_true_iff in Hd as [Hd _].
  apply negb_true_iff in Ht, Hd.
  fold title description people. rewrite Ht, Hd. reflexivity.
Qed.

(** A title and a description that are not blank are accepted, whatever the
    length of the description and the number of people. *)
Lemma gatherUserInput_accepts (page : Page) :
  blank (titleInputElement (projectInput page)) = false ->
  blank (descriptionInputElement (projectInput page)) = false ->
  gatherUserInput page =
    (Some (titleInputElement (projectInput page),
           descriptionInputElement (projectInput page),
           num_of_string (peopleInputElement (projectInput page))), page).
Proof.
  intros Ht Hd. rewrite gatherUserInput_refuses. cbv zeta.
  rewrite Ht, Hd. reflexivity.
Qed.

End InputProperties.

(** ** The heap *)

Section HeapProperties.
Context `{JSNumber}.

Lemma contents_new_array_old (xs : list addr) (h : Heap) (a : addr) :
  a < length (arrays h) ->
  contents a (snd (new_array xs h)) = contents a h.
Proof.
  intros Ha. unfold contents. simpl. rewrite lookup_app_l; [reflexivity|lia].
Qed.

Lemma contents_new_array_new (xs : list addr) (h : Heap) :
  contents (fst (new_array xs h)) (snd (new_array xs h)) = xs.
Proof.
  unfold contents. simpl. rewrite list_lookup_middle; reflexivity.
Qed.

Lemma contents_slice (a : addr) (h : Heap) :
  contents (fst (slice a h)) (snd (slice a h)) = contents a h.
Proof. apply contents_new_array_new. Qed.

Lemma contents_update_same (a : addr) g (h : Heap) :
  a < length (arrays h) ->
  contents a (update a g h) = g (contents a h).
Proof.
  intros Ha. unfold contents, update. cbn [arrays].
  rewrite list_lookup_alter_eq.
  destruct (lookup_lt_is_Some_2 _ _ Ha) as [xs E]. rewrite !E. reflexivity.
Qed.

(** Changing one array changes no other. *)
Lemma contents_update_other (a b : addr) g (h : Heap) :
  a <> b -> contents b (update a g h) = contents b h.
Proof.
  intros Hab. unfold contents, update. cbn [arrays].
  rewrite list_lookup_alter_ne; [reflexivity|assumption].
Qed.

Lemma length_arrays_update (a : addr) g (h : Heap) :
  length (arrays (update a g h)) = length (arrays h).
Proof. unfold update. simpl. apply length_alter. Qed.

Lemma contents_eq_lookup (a : addr) (h h' : Heap) :
  arrays h' !! a = arrays h !! a -> contents a h' = contents a h.
Proof. unfold contents. intros ->. reflexivity. Qed.

Lemma items_length_closed (a : addr) (h : Heap) :
  closed a h -> length (items a h) = length (contents a h).
Proof.
  unfold closed, items. induction 1 as [|o xs Ho _ IH]; [reflexivity|].
  cbn [omap list_omap]. destruct (lookup_lt_is_Some_2 _ _ Ho) as [pr E].
  rewrite E. cbn [length]. f_equal. exact IH.
Qed.

Lemma omap_objects_prefix (xs : list addr) (os os' : list Project) :
  Forall (fun o => o < length os) xs ->
  os `prefix_of` os' ->
  omap (fun o => os' !! o) xs = omap (fun o => os !! o) xs.
Proof.
  intros Hxs Hpre. induction Hxs as [|o xs Ho _ IH]; [reflexivity|].
  cbn [omap list_omap].
  rewrite (prefix_lookup_lt os os' o Ho Hpre).
  destruct (os' !! o); [f_equal|]; exact IH.
Qed.

(** Objects that are only added to leave the items of a closed array as
    they are. *)
Lemma items_frame (a b : addr) (h h' : Heap) :
  closed a h ->
  objects h `prefix_of` objects h' ->
  contents b h' = contents a h ->
  items b h' = items a h.
Proof.
  intros Hc Hpre Hco. unfold items. rewrite Hco.
  apply omap_objects_prefix; assumption.
Qed.

Lemma closed_frame (a b : addr) (h h' : Heap) :
  closed a h ->
  objects h `prefix_of` objects h' ->
  contents b h' = contents a h ->
  closed b h'.
Proof.
  unfold closed. intros Hc Hpre ->.
  eapply Forall_impl; [exact Hc|].
  intros o Ho. simpl in Ho. apply prefix_length in Hpre. lia.
Qed.

End HeapProperties.

(** ** The store *)

Section StoreProperties.
Context `{JSNumber} {W : Type}.
Implicit Types (st : ProjectState W) (ls : list (Listener W)) (s : Heap * W).
Implicit Types (a b : addr).

Lemma notify_cons f ls a s :
  notify (f :: ls) a s =
    let copy := fst (slice a (fst s)) in
    let h1 := snd (slice a (fst s)) in
    let r := notify ls a (f copy (h1, snd s)) in
    (fst r, mkCall W f copy h1 :: snd r).
Proof.
  simpl. destruct (notify ls a _) as [s2 calls]. reflexivity.
Qed.

(** What a round of notifications leaves as it was: an array that every
    listener leaves alone, the number of arrays (it can only grow) and the
    objects. *)
Lemma notify_frame ls a : forall b s,
  b < length (arrays (fst s)) ->
  Forall (leaves_alone b) ls ->
  arrays (fst (fst (notify ls a s))) !! b = arrays (fst s) !! b
  /\ length (arrays (fst s)) <= length (arrays (fst (fst (notify ls a s))))
  /\ objects (fst s) `prefix_of` objects (fst (fst (notify ls a s))).
Proof.
  induction ls as [|f ls IH]; intros b s Hb Hls.
  - simpl. repeat split; [lia|reflexivity].
  - rewrite notify_cons. cbv zeta. cbn [fst snd].
    apply Forall_cons in Hls as [Hf Hls].
    set (copy := fst (slice a (fst s))).
    set (h1 := snd (slice a (fst s))).
    assert (Hlen : length (arrays h1) = S (length (arrays (fst s)))).
    { subst h1. simpl. rewrite length_app. simpl. lia. }
    assert (Hb1 : b < length (arrays h1)) by lia.
    assert (Hne : copy <> b) by (subst copy; simpl; lia).
    destruct (Hf copy h1 (snd s) Hne Hb1) as (Hfa & Hfl & Hfo).
    destruct (IH b (f copy (h1, snd s))) as (Ia & Il & Io); [lia|assumption|].
    repeat split.
    + rewrite Ia, Hfa. subst h1. simpl. apply lookup_app_l. exact Hb.
    + lia.
    + etransitivity; [|exact Io]. exact Hfo.
Qed.

Lemma handed_copy_earlier a (h0 h1 : Heap) (c : Call W) :
  length (arrays h0) <= length (arrays h1) ->
  contents a h1 = contents a h0 ->
  objects h0 `prefix_of` objects h1 ->
  handed_copy a h1 c -> handed_copy a h0 c.
Proof.
  intros Hl Hc Ho (C1 & C2 & C3 & C4 & C5).
  repeat split; try congruence; try lia.
  etransitivity; eassumption.
Qed.

Lemma notify_calls ls a : forall s,
  a < length (arrays (fst s)) ->
  Forall (leaves_alone a) ls ->
  map callee (snd (notify ls a s)) = ls
  /\ Forall (handed_copy a (fst s)) (snd (notify ls a s))
  /\ NoDup (map arg (snd (notify ls a s))).
Proof.
  induction ls as [|f ls IH]; intros s Ha Hls.
  - simpl. repeat split; constructor.
  - rewrite notify_cons. cbv zeta. cbn [fst snd].
    apply Forall_cons in Hls as [Hf Hls].
    set (copy := fst (slice a (fst s))).
    set (h1 := snd (slice a (fst s))).
    assert (Hlen : length (arrays h1) = S (length (arrays (fst s)))).
    { subst h1. simpl. rewrite length_app. simpl. lia. }
    assert (Hcopy : copy = length (arrays (fst s))) by reflexivity.
    assert (Ha1 : a < length (arrays h1)) by lia.
    assert (Hne : copy <> a) by lia.
    assert (Hca : contents a h1 = contents a (fst s)).
    { apply contents_new_array_old. exact Ha. }
    destruct (Hf copy h1 (snd s) Hne Ha1) as (Hfa & Hfl & Hfo).
    destruct (IH (f copy (h1, snd s))) as (Ic & Ih & In); [lia|assumption|].
    split; [|split].
    + cbn [map callee]. f_equal. exact Ic.
    + constructor.
      * unfold handed_copy. cbn [arg at_call].
        split; [lia|]. split; [lia|]. split; [apply contents_slice|].
        split; [exact Hca|]. reflexivity.
      * eapply Forall_impl; [exact Ih|]. intros c Hc. cbv beta in Hc.
        apply handed_copy_earlier with (h1 := fst (f copy (h1, snd s)));
          [lia| |exact Hfo|exact Hc].
        rewrite <- Hca. apply contents_eq_lookup. exact Hfa.
    + cbn [map arg]. apply NoDup_cons. split; [|exact In].
      intros Hin. apply list_elem_of_fmap in Hin as (c & Hc & Hin).
      rewrite Forall_forall in Ih. destruct (Ih c Hin) as (C1 & _). lia.
Qed.

Lemma addProject_notify st random t d p s :
  addProject st random t d p s =
    notify (listeners st) (projects st)
           (pushed st (random, t, d, p) (fst s), snd s).
Proof. reflexivity. Qed.

Lemma pushed_spec st c (h : Heap) :
  projects st < length (arrays h) ->
  closed (projects st) h ->
  contents (projects st) (pushed st c h)
    = contents (projects st) h ++ [length (objects h)]
  /\ items (projects st) (pushed st c h) = items (projects st) h ++ [project_of c]
  /\ closed (projects st) (pushed st c h)
  /\ length (arrays (pushed st c h)) = length (arrays h)
  /\ objects (pushed st c h) = objects h ++ [project_of c]
  /\ (forall b, b <> projects st -> contents b (pushed st c h) = contents b h).
Proof.
  intros Ha Hcl. unfold pushed, push.
  assert (Hco : contents (projects st)
                  (update (projects st) (fun xs => xs ++ [length (objects h)])
                     (snd (new_object (project_of c) h)))
                = contents (projects st) h ++ [length (objects h)]).
  { rewrite contents_update_same; [reflexivity|exact Ha]. }
  split; [exact Hco|]. split; [|split; [|split; [|split]]].
  - unfold items. rewrite Hco, omap_app. cbn [objects update new_object snd].
    f_equal.
    + apply omap_objects_prefix; [exact Hcl|]. apply prefix_app_r. reflexivity.
    + cbn [omap list_omap]. rewrite list_lookup_middle; reflexivity.
  - unfold closed. rewrite Hco. cbn [objects update new_object snd].
    rewrite length_app. cbn [length]. apply Forall_app. split.
    + eapply Forall_impl; [exact Hcl|]. intros o Ho. simpl in Ho. lia.
    + repeat constructor. lia.
  - rewrite length_arrays_update. reflexivity.
  - reflexivity.
  - intros b Hb. rewrite contents_update_other; [reflexivity|congruence].
Qed.

(** One call of [addProject]. *)
Lemma addProject_spec st random t d p s :
  projects st < length (arrays (fst s)) ->
  closed (projects st) (fst s) ->
  Forall (leaves_alone (projects st)) (listeners st) ->
  let c := (random, t, d, p) in
  let r := addProject st random t d p s in
  contents (projects st) (fst (fst r))
    = contents (projects st) (fst s) ++ [length (objects (fst s))]
  /\ items (projects st) (fst (fst r)) = items (projects st) (fst s) ++ [project_of c]
  /\ closed (projects st) (fst (fst r))
  /\ length (arrays (fst s)) <= length (arrays (fst (fst r)))
  /\ objects (fst s) ++ [project_of c] `prefix_of` objects (fst (fst r))
  /\ map callee (snd r) = listeners st
  /\ Forall (handed_copy (projects st) (pushed st c (fst s))) (snd r)
  /\ Forall (fun call => items (arg call) (at_call call)
                         = items (projects st) (fst s) ++ [project_of c]) (snd r)
  /\ NoDup (map arg (snd r)).
Proof.
  intros Ha Hcl Hls c r. subst r. rewrite addProject_notify. fold c.
  destruct (pushed_spec st c (fst s) Ha Hcl) as (Pc & Pi & Pcl & Pl & Po & _).
  set (h2 := pushed st c (fst s)) in *.
  assert (Ha2 : projects st < length (arrays (fst (h2, snd s)))).
  { cbn [fst]. lia. }
  destruct (notify_frame (listeners st) (projects st) (projects st) (h2, snd s)
              Ha2 Hls) as (Fa & Fl & Fo).
  destruct (notify_calls (listeners st) (projects st) (h2, snd s) Ha2 Hls)
    as (Cc & Ch & Cn).
  cbn [fst snd] in Fa, Fl, Fo, Ch.
  set (r := notify (listeners st) (projects st) (h2, snd s)) in *.
  assert (Hco : contents (projects st) (fst (fst r)) = contents (projects st) h2).
  { apply contents_eq_lookup. exact Fa. }
  repeat split.
  - rewrite Hco. exact Pc.
  - rewrite <- Pi. apply items_frame; assumption.
  - eapply closed_frame; eassumption.
  - lia.
  - rewrite <- Po. exact Fo.
  - exact Cc.
  - exact Ch.
  - eapply Forall_impl; [exact Ch|]. intros call (_ & _ & C3 & _ & C5).
    rewrite <- Pi. apply items_frame; assumption.
  - exact Cn.
Qed.

(** The state that a round of notifications leaves is the one that the
    listeners leave, called in order. *)
Lemma notify_state ls a : forall s,
  fst (notify ls a s) = call_all ls a s.
Proof.
  induction ls as [|f ls IH]; intros s; [reflexivity|].
  rewrite notify_cons. cbv zeta. cbn [fst]. rewrite IH. reflexivity.
Qed.

Lemma addProject_state st random t d p s :
  fst (addProject st random t d p s)
  = call_all (listeners st) (projects st)
             (pushed st (random, t, d, p) (fst s), snd s).
Proof. rewrite addProject_notify. apply notify_state. Qed.

Lemma addProjects_cons st c cs s :
  addProjects st (c :: cs) s =
    let r1 := addProject st c.1.1.1 c.1.1.2 c.1.2 c.2 s in
    let r2 := addProjects st cs (fst r1) in
    (fst r2, snd r1 :: snd r2).
Proof.
  destruct c as [[[random t] d] p]. cbn [addProjects fst snd].
  destruct (addProject st random t d p s) as [s1 calls]. cbn [fst snd].
  destruct (addProjects st cs s1) as [s2 log]. reflexivity.
Qed.

Lemma addProjects_state st cs : forall s,
  fst (addProjects st cs s)
  = fold_left
      (fun s c => call_all (listeners st) (projects st)
                           (pushed st c (fst s), snd s))
      cs s.
Proof.
  induction cs as [|c cs IH]; intros s; [reflexivity|].
  rewrite addProjects_cons. cbv zeta. cbn [fst fold_left]. rewrite IH.
  destruct c as [[[random t] d] p]. cbn [fst snd].
  rewrite addProject_state. reflexivity.
Qed.

(** A sequence of calls of [addProject], from any store. *)
Lemma addProjects_spec st cs : forall s,
  projects st < length (arrays (fst s)) ->
  closed (projects st) (fst s) ->
  Forall (leaves_alone (projects st)) (listeners st) ->
  let r := addProjects st cs s in
  items (projects st) (fst (fst r)) = items (projects st) (fst s) ++ map project_of cs
  /\ closed (projects st) (fst (fst r))
  /\ length (snd r) = length cs
  /\ (forall k calls,
        snd r !! k = Some calls ->
        map callee calls = listeners st
        /\ Forall (fun call =>
                     arg call <> projects st
                     /\ items (arg call) (at_call call)
                        = items (projects st) (fst s)
                            ++ map project_of (take (S k) cs)) calls).
Proof.
  induction cs as [|c cs IH]; intros s Ha Hcl Hls.
  - cbn [addProjects map fst snd]. cbv zeta. cbn [fst snd]. rewrite app_nil_r.
    split; [reflexivity|]. split; [assumption|]. split; [reflexivity|].
    intros k calls Hk. rewrite lookup_nil in Hk. discriminate.
  - cbv zeta. rewrite addProjects_cons. cbv zeta. cbn [fst snd].
    destruct c as [[[random t] d] p]. cbn [fst snd].
    destruct (addProject_spec st random t d p s Ha Hcl Hls)
      as (_ & Ai & Acl & Al & _ & Ac & Ah & Ais & _).
    set (r1 := addProject st random t d p s) in *.
    destruct (IH (fst r1)) as (Ii & Icl & Il & Ik); [lia|assumption|assumption|].
    split; [|split; [|split]].
    + rewrite Ii, Ai, <- app_assoc. reflexivity.
    + exact Icl.
    + cbn [length]. rewrite Il. reflexivity.
    + intros [|k] calls Hk.
      * cbn in Hk. injection Hk as <-. split; [exact Ac|].
        apply Forall_forall. intros call Hin.
        rewrite Forall_forall in Ah, Ais.
        destruct (Ah call Hin) as (C1 & _).
        destruct (pushed_spec st (random, t, d, p) (fst s) Ha Hcl)
          as (_ & _ & _ & Pl & _).
        split; [lia|]. rewrite (Ais call Hin). reflexivity.
      * cbn [lookup list_lookup] in Hk. destruct (Ik k calls Hk) as (Kc & Kf).
        split; [exact Kc|].
        eapply Forall_impl; [exact Kf|]. intros call (K1 & K2).
        split; [exact K1|]. rewrite K2, Ai, <- app_assoc. reflexivity.
Qed.

(** C3. From an empty store, after any sequence of calls of [addProject]
    the store holds as many items as there were calls: the items that the
    calls describe, each with the status [Active] and with the text of its
    random draw as its id, in the order of the calls. Every call of
    [addProject] calls every listener once, in the order of registration,
    with an array that is not the array of the store and holds the items
    added so far, the new one last; the state after the calls is the one
    that the listeners leave, each running on what the one before has left.
    The listeners are any functions that do not reach the array of the
    store. *)
Theorem addProject_sequence (st : ProjectState W) cs s :
  projects st < length (arrays (fst s)) ->
  contents (projects st) (fst s) = [] ->
  Forall (leaves_alone (projects st)) (listeners st) ->
  let r := addProjects st cs s in
  length (contents (projects st) (fst (fst r))) = length cs
  /\ items (projects st) (fst (fst r)) = map project_of cs
  /\ Forall (fun pr => status pr = Active) (items (projects st) (fst (fst r)))
  /\ length (snd r) = length cs
  /\ (forall k calls,
        snd r !! k = Some calls ->
        map callee calls = listeners st
        /\ Forall (fun call =>
                     arg call <> projects st
                     /\ items (arg call) (at_call call)
                        = map project_of (take (S k) cs)) calls)
  /\ fst r
     = fold_left
         (fun s c => call_all (listeners st) (projects st)
                              (pushed st c (fst s), snd s))
         cs s.
Proof.
  intros Ha Hempty Hls r.
  assert (Hcl : closed (projects st) (fst s)).
  { unfold closed. rewrite Hempty. constructor. }
  assert (Hi : items (projects st) (fst s) = []).
  { unfold items. rewrite Hempty. reflexivity. }
  destruct (addProjects_spec st cs s Ha Hcl Hls) as (Si & Scl & Sl & Sk).
  fold r in Si, Scl, Sl, Sk. rewrite Hi in Si. cbn [app] in Si.
  split; [|split; [|split; [|split; [|split]]]].
  - rewrite <- (items_length_closed _ _ Scl), Si, length_map. reflexivity.
  - exact Si.
  - rewrite Si. apply Forall_forall. intros pr Hin.
    apply list_elem_of_fmap in Hin as ([[[random t] d] p] & -> & _). reflexivity.
  - exact Sl.
  - intros k calls Hk. destruct (Sk k calls Hk) as (Kc & Kf).
    split; [exact Kc|]. rewrite Hi in Kf. exact Kf.
  - apply addProjects_state.
Qed.


(** The copies are shallow: a copy holds the addresses that the array of
    the store holds, so that the objects are shared. *)
Lemma handed_copy_shares_objects a (h0 : Heap) (c : Call W) o :
  handed_copy a h0 c ->
  o ∈ contents (arg c) (at_call c) <-> o ∈ contents a (at_call c).
Proof. intros (_ & _ & C3 & C4 & _). rewrite C3, C4. reflexivity. Qed.

(** *** [moveProject] *)

Lemma find_project_Some projectId (xs : list addr) (h : Heap) o :
  find_project projectId xs h = Some o ->
  o ∈ xs /\ exists pr, objects h !! o = Some pr /\ id pr = projectId.
Proof.
  unfold find_project. intros Hf. apply find_some in Hf as [Hin Hp].
  split; [apply list_elem_of_In; exact Hin|].
  destruct (objects h !! o) as [pr|]; [|discriminate].
  exists pr. split; [reflexivity|]. apply String.eqb_eq. exact Hp.
Qed.

Lemma find_project_None projectId (xs : list addr) (h : Heap) :
  find_project projectId xs h = None <->
  forall pr, pr ∈ omap (fun o => objects h !! o) xs -> id pr <> projectId.
Proof.
  unfold find_project. induction xs as [|o xs IH]; cbn [find omap list_omap].
  - split; [|reflexivity]. intros _ pr Hin. apply elem_of_nil in Hin. contradiction.
  - destruct (objects h !! o) as [pr|] eqn:E.
    + destruct (String.eqb_spec (id pr) projectId) as [Heq|Hne].
      * split; [discriminate|]. intros Hall. exfalso.
        apply (Hall pr); [left|exact Heq].
      * rewrite IH. split.
        -- intros Hall pr' Hin. apply elem_of_cons in Hin as [->|Hin];
             [exact Hne|apply Hall; exact Hin].
        -- intros Hall pr' Hin. apply Hall. right. exact Hin.
    + exact IH.
Qed.

Lemma moveProject_absent st projectId newStatus s :
  (forall pr, pr ∈ items (projects st) (fst s) -> id pr <> projectId) ->
  moveProject st projectId newStatus s = (s, []).
Proof.
  intros Hall. unfold moveProject.
  apply find_project_None in Hall. rewrite Hall. reflexivity.
Qed.

Lemma moveProject_present st projectId newStatus s :
  projects st < length (arrays (fst s)) ->
  Forall (leaves_alone (projects st)) (listeners st) ->
  (exists pr, pr ∈ items (projects st) (fst s) /\ id pr = projectId) ->
  let r := moveProject st projectId newStatus s in
  exists o pr,
    find_project projectId (contents (projects st) (fst s)) (fst s) = Some o
    /\ o ∈ contents (projects st) (fst s)
    /\ objects (fst s) !! o = Some pr
    /\ id pr = projectId
    /\ objects (fst (fst r)) !! o
       = Some (mkProject (id pr) (title pr) (description pr) (people pr) newStatus)
    /\ (forall o', o' <> o -> o' < length (objects (fst s)) ->
                   objects (fst (fst r)) !! o' = objects (fst s) !! o')
    /\ contents (projects st) (fst (fst r)) = contents (projects st) (fst s)
    /\ map callee (snd r) = listeners st
    /\ Forall (handed_copy (projects st) (set_status o newStatus (fst s))) (snd r).
Proof.
  intros Ha Hls (pr0 & Hin0 & Hid0) r. subst r. unfold moveProject.
  destruct (find_project projectId (contents (projects st) (fst s)) (fst s))
    as [o|] eqn:Ef.
  2:{ exfalso. rewrite find_project_None in Ef. exact (Ef pr0 Hin0 Hid0). }
  destruct (find_project_Some _ _ _ _ Ef) as (Hino & pr & Hpr & Hid).
  exists o, pr.
  set (h1 := set_status o newStatus (fst s)).
  assert (Ha1 : projects st < length (arrays (fst (h1, snd s)))) by exact Ha.
  destruct (notify_frame (listeners st) (projects st) (projects st) (h1, snd s)
              Ha1 Hls) as (Fa & _ & Fo).
  destruct (notify_calls (listeners st) (projects st) (h1, snd s) Ha1 Hls)
    as (Cc & Ch & _).
  cbn [fst snd] in Fa, Fo, Ch.
  set (r := notify (listeners st) (projects st) (h1, snd s)) in *.
  assert (Hlen : length (objects h1) = length (objects (fst s))).
  { subst h1. cbn [objects set_status]. apply length_alter. }
  split; [reflexivity|]. split; [exact Hino|]. split; [exact Hpr|].
  split; [exact Hid|]. split; [|split; [|split; [|split]]].
  - assert (Ho : o < length (objects h1)).
    { rewrite Hlen. eapply lookup_lt_Some. exact Hpr. }
    rewrite <- (prefix_lookup_lt _ _ o Ho Fo).
    subst h1. cbn [objects set_status]. rewrite list_lookup_alter_eq, Hpr.
    reflexivity.
  - intros o' Hne Hlt.
    assert (Ho : o' < length (objects h1)) by (rewrite Hlen; exact Hlt).
    rewrite <- (prefix_lookup_lt _ _ o' Ho Fo).
    subst h1. cbn [objects set_status].
    apply list_lookup_alter_ne. congruence.
  - apply contents_eq_lookup. exact Fa.
  - exact Cc.
  - exact Ch.
Qed.

Lemma moveProject_state st projectId newStatus s o :
  find_project projectId (contents (projects st) (fst s)) (fst s) = Some o ->
  fst (moveProject st projectId newStatus s)
  = call_all (listeners st) (projects st)
             (set_status o newStatus (fst s), snd s).
Proof. intros Hf. unfold moveProject. rewrite Hf. apply notify_state. Qed.

(** C2. [moveProject], as the specification describes it. If no item of
    the store has the given id, the call changes nothing and calls no
    listener. If an item has it, the first such item gets the new status
    and keeps its other fields, every other object is as it was, the
    sequence of the store is the same, and every listener is called once,
    in the order of registration, with a copy of the sequence: the state
    after the call is the one that the listeners leave, each running on
    what the one before has left, from the heap with the new status. *)
Theorem moveProject_sets_status_only (st : ProjectState W) projectId newStatus s :
  projects st < length (arrays (fst s)) ->
  Forall (leaves_alone (projects st)) (listeners st) ->
  let r := moveProject st projectId newStatus s in
  ((forall pr, pr ∈ items (projects st) (fst s) -> id pr <> projectId) ->
     r = (s, []))
  /\ ((exists pr, pr ∈ items (projects st) (fst s) /\ id pr = projectId) ->
      exists o pr,
        find_project projectId (contents (projects st) (fst s)) (fst s) = Some o
        /\ o ∈ contents (projects st) (fst s)
        /\ objects (fst s) !! o = Some pr
        /\ id pr = projectId
        /\ objects (fst (fst r)) !! o
           = Some (mkProject (id pr) (title pr) (description pr) (people pr)
                             newStatus)
        /\ (forall o', o' <> o -> o' < length (objects (fst s)) ->
                       objects (fst (fst r)) !! o' = objects (fst s) !! o')
        /\ contents (projects st) (fst (fst r)) = contents (projects st) (fst s)
        /\ map callee (snd r) = listeners st
        /\ Forall (handed_copy (projects st) (set_status o newStatus (fst s)))
                  (snd r)
        /\ fst r
           = call_all (listeners st) (projects st)
                      (set_status o newStatus (fst s), snd s)).
Proof.
  intros Ha Hls r. split.
  - apply moveProject_absent.
  - intros Hex.
    destruct (moveProject_present st projectId newStatus s Ha Hls Hex)
      as (o & pr & Hf & Hin & Hpr & Hid & Hnew & Hoth & Hco & Hca & Hha).
    exists o, pr.
    split; [exact Hf|]. split; [exact Hin|]. split; [exact Hpr|].
    split; [exact Hid|]. split; [exact Hnew|]. split; [exact Hoth|].
    split; [exact Hco|]. split; [exact Hca|]. split; [exact Hha|].
    apply moveProject_state. exact Hf.
Qed.

(** *** The states of the store *)

Lemma project_of_id_not_empty c :
  toString_never_blank -> id (project_of c) <> "".
Proof.
  intros Hblank.
  destruct c as [[[random t] d] p]. cbn [project_of id]. intros E.
  pose proof (Hblank random) as Hb. rewrite E in Hb.
  discriminate.
Qed.

Lemma Forall_items_alter (P : Project -> Prop) f o (os : list Project)
    (xs : list addr) :
  (forall pr, P pr -> P (f pr)) ->
  Forall P (omap (fun x => os !! x) xs) ->
  Forall P (omap (fun x => alter f o os !! x) xs).
Proof.
  intros Hf. induction xs as [|x xs IH]; cbn [omap list_omap]; [constructor|].
  intros Hall. destruct (decide (o = x)) as [->|Hne].
  - rewrite list_lookup_alter_eq. destruct (os !! x) as [pr|]; cbn.
    + apply Forall_cons in Hall as [Hp Hall]. constructor; auto.
    + auto.
  - rewrite list_lookup_alter_ne by exact Hne. destruct (os !! x) as [pr|].
    + apply Forall_cons in Hall as [Hp Hall]. constructor; auto.
    + auto.
Qed.

Lemma reachable_inv st s :
  toString_never_blank ->
  Forall (leaves_alone (projects st)) (listeners st) ->
  reachable st s -> store_inv st s.
Proof.
  intros Hblank Hls. induction 1 as [s Ha He|s random t d p _ IH|s pid ns _ IH|s w _ IH].
  - repeat split; [exact Ha| |].
    + unfold closed. rewrite He. constructor.
    + unfold items. rewrite He. constructor.
  - destruct IH as (Ha & Hcl & Hid).
    destruct (addProject_spec st random t d p s Ha Hcl Hls)
      as (_ & Ai & Acl & Al & _).
    repeat split; [lia|exact Acl|].
    rewrite Ai. apply Forall_app. split; [exact Hid|].
    repeat constructor. apply project_of_id_not_empty. exact Hblank.
  - destruct IH as (Ha & Hcl & Hid). unfold moveProject.
    destruct (find_project pid (contents (projects st) (fst s)) (fst s)) as [o|];
      [|repeat split; assumption].
    set (h1 := set_status o ns (fst s)).
    assert (Ha1 : projects st < length (arrays (fst (h1, snd s)))) by exact Ha.
    destruct (notify_frame (listeners st) (projects st) (projects st) (h1, snd s)
                Ha1 Hls) as (Fa & Fl & Fo).
    cbn [fst snd] in Fa, Fl, Fo.
    assert (Hcl1 : closed (projects st) h1).
    { unfold closed, h1. cbn [objects set_status]. rewrite length_alter.
      exact Hcl. }
    assert (Hco : contents (projects st)
                    (fst (fst (notify (listeners st) (projects st) (h1, snd s))))
                  = contents (projects st) h1).
    { apply contents_eq_lookup. exact Fa. }
    repeat split.
    + assert (Hl1 : length (arrays h1) = length (arrays (fst s))) by reflexivity.
      lia.
    + eapply closed_frame; eassumption.
    + rewrite (items_frame _ _ _ _ Hcl1 Fo Hco).
      unfold items, h1. cbn [objects set_status].
      apply Forall_items_alter; [|exact Hid]. intros pr Hp. exact Hp.
  - exact IH.
Qed.

End StoreProperties.

(** ** The lists *)

Section ListProperties.
Context `{JSNumber}.

Lemma get_set_list type l (page : Page) :
  get_list type (set_list type l page) = l.
Proof. destruct type; reflexivity. Qed.

Lemma get_set_list_other type type' l (page : Page) :
  type <> type' -> get_list type' (set_list type l page) = get_list type' page.
Proof. destruct type, type'; intros Hne; try reflexivity; congruence. Qed.

(** The loop of [renderProjects] adds the views of the projects, in order,
    after the children that the host has. *)
Lemma fold_newProjectItem (h : Heap) (xs : list addr) : forall host,
  fold_left (fun host projectItem => newProjectItem host projectItem h) xs host
  = mkUl (ul_id host) (classList host) (children host ++ omap (item_view h) xs).
Proof.
  induction xs as [|o xs IH]; intros host; cbn [fold_left omap list_omap].
  - rewrite app_nil_r. destruct host; reflexivity.
  - rewrite IH. unfold newProjectItem, item_view.
    destruct (objects h !! o) as [pr|]; [|reflexivity].
    cbn [ul_id classList children]. rewrite <- app_assoc. reflexivity.
Qed.

Lemma renderProjects_spec type (h : Heap) (page : Page) :
  let this := get_list type page in
  get_list type (renderProjects type h page)
  = mkProjectList (assignedProjects this) (heading this)
      (mkUl (ul_id (ul this)) (classList (ul this))
            (omap (item_view h) (contents (assignedProjects this) h))).
Proof.
  unfold renderProjects. rewrite get_set_list, fold_newProjectItem. reflexivity.
Qed.

Lemma relevant_matches type (h : Heap) o :
  relevant type h o
  = match objects h !! o with Some pr => matches type pr | None => false end.
Proof. reflexivity. Qed.

Lemma items_filter_relevant type (h : Heap) (xs : list addr) :
  omap (fun o => objects h !! o) (List.filter (relevant type h) xs)
  = List.filter (matches type) (omap (fun o => objects h !! o) xs).
Proof.
  induction xs as [|o xs IH]; [reflexivity|].
  cbn [List.filter omap list_omap]. rewrite relevant_matches.
  destruct (objects h !! o) as [pr|] eqn:E; [|exact IH].
  cbn [List.filter]. destruct (matches type pr); [|exact IH].
  cbn [omap list_omap]. rewrite E, IH. reflexivity.
Qed.

Lemma item_views_of_relevant type (h : Heap) (xs : list addr) :
  map project (omap (item_view h) (List.filter (relevant type h) xs))
    = List.filter (relevant type h) xs
  /\ map element (omap (item_view h) (List.filter (relevant type h) xs))
     = map newLi (List.filter (matches type) (omap (fun o => objects h !! o) xs)).
Proof.
  induction xs as [|o xs [IH1 IH2]]; [split; reflexivity|].
  cbn [List.filter omap list_omap]. rewrite relevant_matches.
  destruct (objects h !! o) as [pr|] eqn:E; [|split; assumption].
  cbn [List.filter]. destruct (matches type pr); [|split; assumption].
  assert (Hv : item_view h o = Some (mkProjectItem o (newLi pr))).
  { unfold item_view. rewrite E. reflexivity. }
  cbn [omap list_omap]. rewrite Hv.
  split; cbn [map project element]; f_equal; assumption.
Qed.

Lemma listListener_spec type (projects : addr) (h : Heap) (page : Page) :
  let r := listListener type projects (h, page) in
  let this := get_list type (snd r) in
  contents (assignedProjects this) (fst r)
    = List.filter (relevant type h) (contents projects h)
  /\ items (assignedProjects this) (fst r)
     = List.filter (matches type) (items projects h)
  /\ map project (children (ul this))
     = List.filter (relevant type h) (contents projects h)
  /\ map element (children (ul this))
     = map newLi (List.filter (matches type) (items projects h)).
Proof.
  intros r this. subst this r. unfold listListener. cbn [fst snd new_array].
  rewrite renderProjects_spec. rewrite get_set_list.
  cbn [assignedProjects heading ul children].
  set (h1 := mkHeap (objects h)
               (arrays h ++ [List.filter (relevant type h) (contents projects h)])).
  assert (Hc : contents (length (arrays h)) h1
               = List.filter (relevant type h) (contents projects h)).
  { apply (contents_new_array_new _ h). }
  rewrite Hc.
  assert (Hv : forall xs : list addr,
             omap (item_view h1) xs = omap (item_view h) xs).
  { reflexivity. }
  rewrite Hv.
  destruct (item_views_of_relevant type h (contents projects h)) as [V1 V2].
  repeat split.
  - unfold items. rewrite Hc.
    exact (items_filter_relevant type h (contents projects h)).
  - exact V1.
  - exact V2.
Qed.

(** C5. When the listener of a list returns, the list holds the items of
    the array it was called with whose status is that of the list, in the
    order of that array, and the children of its [ul] are the views of
    these items and nothing else; what the list held and showed before
    plays no part. *)
Theorem listListener_shows_filter type (projects : addr) (h : Heap) (page : Page) :
  let r := listListener type projects (h, page) in
  let this := get_list type (snd r) in
  contents (assignedProjects this) (fst r)
    = List.filter (relevant type h) (contents projects h)
  /\ items (assignedProjects this) (fst r)
     = List.filter (matches type) (items projects h)
  /\ map project (children (ul this))
     = List.filter (relevant type h) (contents projects h)
  /\ map element (children (ul this))
     = map newLi (List.filter (matches type) (items projects h)).
Proof. exact (listListener_spec type projects h page). Qed.

(** The listener of a list allocates one array and changes nothing else
    in the heap. *)
Lemma listListener_leaves_alone type (a : addr) :
  leaves_alone a (listListener type).
Proof.
  intros x h w _ Ha. unfold listListener. cbn [fst snd new_array arrays objects].
  split; [|split].
  - apply lookup_app_l. exact Ha.
  - rewrite length_app. lia.
  - reflexivity.
Qed.

Lemma listListener_other type type' (x : addr) (h : Heap) (page : Page) :
  type <> type' ->
  get_list type' (snd (listListener type x (h, page))) = get_list type' page.
Proof.
  intros Hne. unfold listListener, renderProjects. cbn [fst snd new_array].
  rewrite !get_set_list_other by exact Hne. reflexivity.
Qed.

Lemma listListener_heap type (x : addr) (h : Heap) (page : Page) :
  fst (listListener type x (h, page))
  = mkHeap (objects h)
           (arrays h ++ [List.filter (relevant type h) (contents x h)]).
Proof. reflexivity. Qed.

(** A round of notifications on the page: when it ends, each of the two
    lists shows the items of the store that have its status. *)
Lemma notify_lists_show_store (a : addr) (h : Heap) (page : Page) type :
  a < length (arrays h) ->
  let r := notify [listListener active; listListener finished] a (h, page) in
  map element (children (ul (get_list type (snd (fst r)))))
  = map newLi (List.filter (matches type) (items a h)).
Proof.
  intros Ha r. subst r. rewrite notify_cons. cbv zeta.
  rewrite notify_cons. cbv zeta. cbn [notify fst snd].
  pose (h1 := snd (slice a h)).
  pose (s1 := listListener active (fst (slice a h)) (h1, page)).
  pose (h2 := snd (slice a (fst s1))).
  assert (Hi1 : items (fst (slice a h)) h1 = items a h).
  { unfold items, h1. rewrite contents_slice. reflexivity. }
  assert (Hc : contents a (fst s1) = contents a h).
  { unfold s1. rewrite listListener_heap. unfold contents, h1.
    cbn [arrays slice new_array snd].
    rewrite !lookup_app_l; [reflexivity|exact Ha|rewrite length_app; lia]. }
  assert (Hi2 : items (fst (slice a (fst s1))) h2 = items a h).
  { unfold items, h2. rewrite contents_slice, Hc. reflexivity. }
  destruct type.
  - rewrite listListener_other by discriminate.
    destruct (listListener_spec active (fst (slice a h)) h1 page)
      as (_ & _ & _ & V).
    fold h1. rewrite V, Hi1. reflexivity.
  - destruct (listListener_spec finished (fst (slice a (fst s1))) h2 (snd s1))
      as (_ & _ & _ & V).
    fold h1. fold s1. fold h2. rewrite V, Hi2. reflexivity.
Qed.

(** After [addProject] on a page with the two lists as the listeners, each
    list shows the items of the store that have its status, the new one
    included. *)
Lemma addProject_lists_show_store (st : ProjectState Page) random t d p
    (s : Heap * Page) type :
  listeners st = [listListener active; listListener finished] ->
  projects st < length (arrays (fst s)) ->
  closed (projects st) (fst s) ->
  let r := addProject st random t d p s in
  map element (children (ul (get_list type (snd (fst r)))))
  = map newLi
      (List.filter (matches type)
         (items (projects st) (fst s) ++ [project_of (random, t, d, p)])).
Proof.
  intros Hls Ha Hcl r. subst r. rewrite addProject_notify, Hls.
  destruct (pushed_spec st (random, t, d, p) (fst s) Ha Hcl)
    as (_ & Pi & _ & Pl & _).
  rewrite notify_lists_show_store by lia. rewrite Pi. reflexivity.
Qed.

End ListProperties.

(** ** Drag and drop *)

Lemma getData_absent (format : string) (dt : DataTransfer) :
  format ∉ types dt -> getData format dt = "".
Proof.
  unfold getData, types. intros Hnot.
  destruct (List.find _ (data dt)) as [item|] eqn:E; [|reflexivity].
  exfalso. apply find_some in E as [Hin Heq]. apply Hnot.
  apply String.eqb_eq in Heq. rewrite <- Heq.
  apply list_elem_of_fmap. exists item. split; [reflexivity|].
  apply list_elem_of_In. exact Hin.
Qed.

Lemma find_format_after_set (format text : string) (items : list (string * string)) :
  List.find (fun item => String.eqb (fst item) format)
    (List.filter (fun item => negb (String.eqb (fst item) format)) items
       ++ [(format, text)])
  = Some (format, text).
Proof.
  induction items as [|[f t] items IH]; cbn [List.filter app find fst].
  - rewrite String.eqb_refl. reflexivity.
  - destruct (String.eqb f format) eqn:E; cbn [negb]; [exact IH|].
    cbn [app find fst]. rewrite E. exact IH.
Qed.

Lemma find_other_format_after_set (format other text : string)
    (items : list (string * string)) :
  other <> format ->
  List.find (fun item => String.eqb (fst item) other)
    (List.filter (fun item => negb (String.eqb (fst item) format)) items
       ++ [(format, text)])
  = List.find (fun item => String.eqb (fst item) other) items.
Proof.
  intros Hne. induction items as [|[f t] items IH]; cbn [List.filter app find fst].
  - apply String.eqb_neq in Hne. rewrite String.eqb_sym, Hne. reflexivity.
  - destruct (String.eqb f format) eqn:E; cbn [negb].
    + apply String.eqb_eq in E. subst f.
      apply String.eqb_neq in Hne. rewrite String.eqb_sym, Hne. exact IH.
    + cbn [app find fst]. destruct (String.eqb f other); [reflexivity|exact IH].
Qed.

(** What is written is what is read, and the other formats are as before. *)
Lemma getData_setData (format text : string) (dt : DataTransfer) :
  getData format (setData format text dt) = text.
Proof. unfold getData, setData. cbn [data]. rewrite find_format_after_set. reflexivity. Qed.

Lemma getData_setData_other (format other text : string) (dt : DataTransfer) :
  other <> format ->
  getData other (setData format text dt) = getData other dt.
Proof.
  intros Hne. unfold getData, setData. cbn [data].
  rewrite find_other_format_after_set by exact Hne. reflexivity.
Qed.

Lemma classList_add_elem (c : string) (cl : list string) :
  c ∈ classList_add c cl.
Proof.
  unfold classList_add. destruct (existsb (String.eqb c) cl) eqn:E.
  - apply existsb_exists in E as (c' & Hin & Heq).
    apply String.eqb_eq in Heq. subst c'. apply list_elem_of_In. exact Hin.
  - apply elem_of_app. right. left.
Qed.

(** The class list is a set: the classes that were there stay. *)
Lemma classList_add_keeps (c c' : string) (cl : list string) :
  c' ∈ cl -> c' ∈ classList_add c cl.
Proof.
  unfold classList_add. destruct (existsb (String.eqb c) cl); [auto|].
  intros Hin. apply elem_of_app. left. exact Hin.
Qed.

Section DragProperties.
Context `{JSNumber}.

(** C7, as the source has it. [dragOverHandler] accepts an event exactly
    when the first type that its payload lists is [text/plain]: it then
    prevents the default and the [ul] of the list has the class
    [droppable], with the classes and the children it had; nothing else on
    the page changes. In every other case, a payload that lists
    [text/plain] further down included, the event and the page are as
    they were. *)
Theorem dragOverHandler_first_type type (event : DragEvent) (page : Page) :
  let r := dragOverHandler type event page in
  let before := get_list type page in
  let after := get_list type (snd r) in
  (first_type event = Some "text/plain" ->
     fst r = preventDefault event
     /\ "droppable" ∈ classList (ul after)
     /\ (forall c, c ∈ classList (ul before) -> c ∈ classList (ul after))
     /\ children (ul after) = children (ul before)
     /\ ul_id (ul after) = ul_id (ul before)
     /\ assignedProjects after = assignedProjects before
     /\ (forall type', type <> type' -> get_list type' (snd r) = get_list type' page)
     /\ projectInput (snd r) = projectInput page
     /\ alerts (snd r) = alerts page)
  /\ (first_type event <> Some "text/plain" -> r = (event, page)).
Proof.
  intros r before after. subst r after before.
  unfold dragOverHandler, first_type.
  destruct (dataTransfer event) as [dt|]; [|split; [discriminate|reflexivity]].
  destruct (types dt !! 0) as [first|]; [|split; [discriminate|reflexivity]].
  destruct (String.eqb_spec first "text/plain") as [->|Hne].
  - split; [intros _|congruence]. cbn [fst snd]. rewrite get_set_list.
    cbn [set_ul ul classList children ul_id assignedProjects].
    split; [reflexivity|]. split; [apply classList_add_elem|].
    split; [intros c; apply classList_add_keeps|].
    split; [reflexivity|]. split; [reflexivity|]. split; [reflexivity|].
    split; [intros type' Hne; apply get_set_list_other; exact Hne|].
    destruct type; split; reflexivity.
  - split; [|reflexivity]. intros E. injection E as E. contradiction.
Qed.

(** C8. On drag start the item writes the id of its project, and nothing
    else, into the payload as [text/plain] and sets the allowed effect to
    [move]; on a drop that carries this payload a list calls [moveProject]
    of the store with this id and with the status of its own type. *)
Theorem drag_carries_identity {S R : Type}
    (moveProject : string -> ProjectStatus -> S -> R)
    (this : ProjectItem) (h : Heap) (pr : Project)
    (event : DragEvent) (dt : DataTransfer) (type : ListType) (s : S) :
  objects h !! project this = Some pr ->
  dataTransfer event = Some dt ->
  exists dt',
    dragStartHandler this h event
      = Some (mkDragEvent (Some dt') (defaultPrevented event))
    /\ getData "text/plain" dt' = id pr
    /\ (forall other, other <> "text/plain" -> getData other dt' = getData other dt)
    /\ effectAllowed dt' = "move"
    /\ (forall drop,
          dataTransfer drop = Some dt' ->
          dropHandler moveProject type drop s
            = Some (drop, moveProject (id pr) (status_of type) s))
    /\ status_of active = Active
    /\ status_of finished = Finished.
Proof.
  intros Hpr Hdt.
  exists (set_effectAllowed "move" (setData "text/plain" (id pr) dt)).
  unfold dragStartHandler. rewrite Hdt, Hpr.
  split; [reflexivity|]. split; [apply getData_setData|].
  split; [intros other Hne; apply getData_setData_other; exact Hne|].
  split; [reflexivity|]. split; [|split; reflexivity].
  intros drop Hdrop. unfold dropHandler. rewrite Hdrop.
  f_equal. f_equal. f_equal. apply getData_setData.
Qed.

(** A drop event without a payload object: the handler ends with a
    [TypeError] before it reaches the store. *)
Lemma dropHandler_no_dataTransfer {S R : Type}
    (moveProject : string -> ProjectStatus -> S -> R) type (event : DragEvent) s :
  dataTransfer event = None -> dropHandler moveProject type event s = None.
Proof. unfold dropHandler. intros ->. reflexivity. Qed.

(** C9. A drop whose payload has no [text/plain] item reads the empty
    string as the id. No item of a store has this id, so that
    [moveProject], as the specification describes it, changes nothing and
    calls no listener. The handler leaves the event as it is: the default
    is not prevented. The ids of a store are texts of numbers, which are
    never blank. *)
Theorem drop_without_plain_text {W : Type} (st : ProjectState W) type
    (event : DragEvent) (dt : DataTransfer) (s : Heap * W) :
  toString_never_blank ->
  Forall (leaves_alone (projects st)) (listeners st) ->
  reachable st s ->
  dataTransfer event = Some dt ->
  "text/plain" ∉ types dt ->
  dropHandler (moveProject st) type event s = Some (event, (s, [])).
Proof.
  intros Hblank Hls Hr Hdt Hnot. unfold dropHandler. rewrite Hdt.
  rewrite (getData_absent _ _ Hnot). f_equal. f_equal.
  apply moveProject_absent.
  destruct (reachable_inv st s Hblank Hls Hr) as (_ & _ & Hid).
  rewrite Forall_forall in Hid. exact Hid.
Qed.

End DragProperties.

(** C7, as the claim has it, fails: a payload that lists [text/html] first
    and [text/plain] second advertises the plain text type, and the handler
    leaves the event and the page as they are. *)
Lemma dragOver_ignores_plain_text_listed_second :
  let dt := mkDataTransfer [("text/html", "<p>a</p>"); ("text/plain", "a")] "all" in
  let event := mkDragEvent (Some dt) false in
  let page :=
    mkPage (mkProjectInput "" "" "")
           (mkProjectList 1 "ACTIVE PROJECTS" (mkUl "active-projects-list" [] []))
           (mkProjectList 2 "FINISHED PROJECTS" (mkUl "finished-projects-list" [] []))
           [] in
  ("text/plain" ∈ types dt)
  /\ dragOverHandler active event page = (event, page)
  /\ defaultPrevented (fst (dragOverHandler active event page)) = false
  /\ ("droppable"
      ∉ classList (ul (get_list active (snd (dragOverHandler active event page))))).
Proof.
  cbv zeta. split; [|split; [|split]].
  - right. left.
  - reflexivity.
  - reflexivity.
  - cbn. apply not_elem_of_nil.
Qed.

(** ** The board at work

    The page as the program builds it, with numbers that are integers. *)

Lemma bootstrap_listeners `{JSNumber} :
  listeners (fst bootstrap) = [listListener active; listListener finished].
Proof. reflexivity. Qed.

Lemma bootstrap_leaves_alone `{JSNumber} (a : addr) :
  Forall (leaves_alone a) (listeners (fst bootstrap)).
Proof.
  rewrite bootstrap_listeners.
  apply Forall_cons. split; [apply listListener_leaves_alone|].
  apply Forall_cons. split; [apply listListener_leaves_alone|].
  apply Forall_nil_2.
Qed.

Lemma bootstrap_reachable `{JSNumber} : reachable (fst bootstrap) (snd bootstrap).
Proof. apply reachable_empty; [cbn; lia|reflexivity]. Qed.

Section Board.
Local Existing Instance IntNumber_JSNumber.

(** The third input of the scenario of [validate]. *)
Example validate_eleven :
  validate (mkValidatable (VNumber (Some 11%Z)) None None None
              (Some (Some 0%Z)) (Some (Some 10%Z))) = false.
Proof. reflexivity. Qed.

(** The scenario of the specification: two projects are added, both show in
    the active list in this order; the first is moved, and each list shows
    one. The two draws stand for two different values of [Math.random()]. *)
Example two_projects_then_move :
  let s1 := fst (addProject board (Some 0%Z) "Build API"
                   "Implement REST endpoints" (Some 3%Z) start) in
  let s2 := fst (addProject board (Some 1%Z) "Design UI"
                   "Mockups and wireframes" (Some 2%Z) s1) in
  let s3 := fst (moveProject board "0" Finished s2) in
  map (fun v => h2 (element v)) (children (ul (activeProjectList (snd s2))))
    = ["Build API"; "Design UI"]
  /\ children (ul (finishedProjectList (snd s2))) = []
  /\ map (fun v => h2 (element v)) (children (ul (activeProjectList (snd s3))))
     = ["Design UI"]
  /\ map (fun v => h2 (element v)) (children (ul (finishedProjectList (snd s3))))
     = ["Build API"].
Proof. vm_compute. repeat split. Qed.

(** C6, at a submission that the source lets through: a description of
    three characters and eleven people. No alert is raised, the project is
    in the store and the active list shows it. The claim has an alert and
    no change of the store. *)
Theorem submitHandler_commits_invalid_input :
  let r := submitHandler board (Some 0%Z) (fill "Build API" "abc" "11" start) in
  satisfies_constraints (descriptionValidatable "abc") = false
  /\ satisfies_constraints (peopleValidatable "11") = false
  /\ alerts (snd (fst r)) = []
  /\ items (projects board) (fst (fst r))
     = [mkProject "0" "Build API" "abc" (Some 11%Z) Active]
  /\ map element (children (ul (activeProjectList (snd (fst r)))))
     = [mkLi "0" "Build API" "11 persons assigned" "abc"].
Proof. vm_compute. repeat split. Qed.

(** The only submissions that the source refuses: here, a blank title. *)
Example submitHandler_refuses_blank_title :
  let s := fill "  " "Implement REST endpoints" "3" start in
  let r := submitHandler board (Some 0%Z) s in
  alerts (snd (fst r)) = ["Invalid input, please try again!"]
  /\ items (projects board) (fst (fst r)) = []
  /\ snd r = [].
Proof. vm_compute. repeat split. Qed.

Lemma board_allocated : projects board < length (arrays (fst start)).
Proof. cbn. lia. Qed.

Lemma one_project_allocated : projects board < length (arrays (fst one_project)).
Proof. vm_compute. lia. Qed.

Lemma one_project_items :
  items (projects board) (fst one_project)
  = [mkProject "0" "Build API" "Implement REST endpoints" (Some 3%Z) Active].
Proof. vm_compute. reflexivity. Qed.

(** [addProject_sequence] at the two projects of the scenario. *)
Lemma addProject_sequence_witness :
  let cs := [(Some 0%Z, "Build API", "Implement REST endpoints", Some 3%Z);
             (Some 1%Z, "Design UI", "Mockups and wireframes", Some 2%Z)] in
  let r := addProjects board cs start in
  projects board < length (arrays (fst start))
  /\ contents (projects board) (fst start) = []
  /\ Forall (leaves_alone (projects board)) (listeners board)
  /\ length (contents (projects board) (fst (fst r))) = 2
  /\ items (projects board) (fst (fst r)) = map project_of cs
  /\ map (fun v => h2 (element v))
         (children (ul (activeProjectList (snd (fst r)))))
     = ["Build API"; "Design UI"].
Proof.
  intros cs r.
  pose proof (addProject_sequence board cs start board_allocated eq_refl
                (bootstrap_leaves_alone (projects board)))
    as (Hlen & Hitems & _ & _ & _ & Hstate).
  split; [exact board_allocated|]. split; [reflexivity|].
  split; [exact (bootstrap_leaves_alone (projects board))|].
  split; [exact Hlen|]. split; [exact Hitems|].
  fold r in Hstate. rewrite Hstate. vm_compute. reflexivity.
Defined.



(** [moveProject_sets_status_only] at the board with one project: an id
    that no item has, and the id of the project. *)
Lemma moveProject_sets_status_only_witness :
  projects board < length (arrays (fst one_project))
  /\ Forall (leaves_alone (projects board)) (listeners board)
  /\ moveProject board "7" Finished one_project = (one_project, [])
  /\ objects (fst (fst (moveProject board "0" Finished one_project))) !! 0
     = Some (mkProject "0" "Build API" "Implement REST endpoints" (Some 3%Z)
               Finished)
  /\ map (fun v => h2 (element v))
         (children (ul (finishedProjectList
                          (snd (fst (moveProject board "0" Finished one_project))))))
     = ["Build API"].
Proof.
  pose proof (moveProject_sets_status_only board "7" Finished one_project
                one_project_allocated (bootstrap_leaves_alone (projects board)))
    as (Habsent & _).
  pose proof (moveProject_sets_status_only board "0" Finished one_project
                one_project_allocated (bootstrap_leaves_alone (projects board)))
    as (_ & Hpresent).
  split; [exact one_project_allocated|].
  split; [exact (bootstrap_leaves_alone (projects board))|]. split.
  - apply Habsent. intros pr Hin. rewrite one_project_items in Hin.
    apply list_elem_of_singleton in Hin. subst pr. discriminate.
  - destruct Hpresent
      as (o & pr & Hfind & _ & Hpr & _ & Hnew & _ & _ & _ & _ & Hstate).
    { eexists. rewrite one_project_items. split; [left|reflexivity]. }
    assert (Ho : o = 0).
    { vm_compute in Hfind. injection Hfind as Ho. symmetry. exact Ho. }
    subst o. assert (Hp : pr = mkProject "0" "Build API"
                              "Implement REST endpoints" (Some 3%Z) Active).
    { vm_compute in Hpr. injection Hpr as Hp. symmetry. exact Hp. }
    subst pr. split; [exact Hnew|].
    rewrite Hstate. vm_compute. reflexivity.
Defined.

(** [drag_carries_identity] at the view of the project of the board, for a
    payload that is empty at the start of the drag. *)
Lemma drag_carries_identity_witness :
  let this := mkProjectItem 0
                (mkLi "0" "Build API" "3 persons assigned"
                      "Implement REST endpoints") in
  let dt := mkDataTransfer [] "uninitialized" in
  let event := mkDragEvent (Some dt) false in
  objects (fst one_project) !! project this
    = Some (mkProject "0" "Build API" "Implement REST endpoints" (Some 3%Z) Active)
  /\ dataTransfer event = Some dt
  /\ exists dt',
       dragStartHandler this (fst one_project) event
         = Some (mkDragEvent (Some dt') false)
       /\ getData "text/plain" dt' = "0"
       /\ dropHandler (moveProject board) finished (mkDragEvent (Some dt') false)
            one_project
          = Some (mkDragEvent (Some dt') false,
              moveProject board "0" Finished one_project).
Proof.
  intros this dt event.
  assert (Hpr : objects (fst one_project) !! project this
                = Some (mkProject "0" "Build API" "Implement REST endpoints"
                          (Some 3%Z) Active)).
  { vm_compute. reflexivity. }
  split; [exact Hpr|]. split; [reflexivity|].
  destruct (drag_carries_identity (moveProject board) this (fst one_project) _
              event dt finished one_project Hpr eq_refl)
    as (dt' & Hstart & Hget & _ & _ & Hdrop & _).
  exists dt'. split; [exact Hstart|]. split; [exact Hget|].
  apply Hdrop. reflexivity.
Defined.

(** [drop_without_plain_text] at the board with one project, for a payload
    that carries a link only. *)
Lemma drop_without_plain_text_witness :
  let dt := mkDataTransfer [("text/uri-list", "https://example.org/")] "all" in
  let event := mkDragEvent (Some dt) false in
  toString_never_blank
  /\ Forall (leaves_alone (projects board)) (listeners board)
  /\ reachable board one_project
  /\ dataTransfer event = Some dt
  /\ ("text/plain" ∉ types dt)
  /\ dropHandler (moveProject board) finished event one_project
     = Some (event, (one_project, [])).
Proof.
  intros dt event.
  assert (Hr : reachable board one_project).
  { apply reachable_add. apply bootstrap_reachable. }
  assert (Hnot : "text/plain" ∉ types dt).
  { intros Hin. apply list_elem_of_singleton in Hin. discriminate. }
  split; [exact IntNumber_toString_never_blank|].
  split; [exact (bootstrap_leaves_alone (projects board))|].
  split; [exact Hr|]. split; [reflexivity|]. split; [exact Hnot|].
  exact (drop_without_plain_text board finished event dt one_project
           IntNumber_toString_never_blank
           (bootstrap_leaves_alone (projects board)) Hr eq_refl Hnot).
Defined.

End Board.

(** * Further properties of the sources *)

(** ** The marker of a list under [dragover] and [dragleave] *)

Lemma classList_remove_not_elem (c : string) (cl : list string) :
  c ∉ classList_remove c cl.
Proof.
  unfold classList_remove. intros Hin. apply list_elem_of_In in Hin.
  apply filter_In in Hin as [_ Hc]. rewrite String.eqb_refl in Hc. discriminate.
Qed.

Lemma classList_remove_other (c c' : string) (cl : list string) :
  c' <> c -> c' ∈ classList_remove c cl <-> c' ∈ cl.
Proof.
  intros Hne. unfold classList_remove. rewrite !list_elem_of_In, filter_In.
  split; [tauto|]. intros Hin. split; [exact Hin|].
  apply negb_true_iff, String.eqb_neq. congruence.
Qed.

Lemma classList_remove_absent (c : string) (cl : list string) :
  c ∉ cl -> classList_remove c cl = cl.
Proof.
  unfold classList_remove. induction cl as [|c' cl IH]; [reflexivity|].
  intros Hnot. cbn [List.filter].
  destruct (String.eqb_spec c c') as [->|Hne].
  - exfalso. apply Hnot. left.
  - cbn [negb]. f_equal. apply IH. intros Hin. apply Hnot. right. exact Hin.
Qed.

Lemma classList_remove_add (c : string) (cl : list string) :
  c ∉ cl -> classList_remove c (classList_add c cl) = cl.
Proof.
  intros Hnot. unfold classList_add.
  destruct (existsb (String.eqb c) cl) eqn:E.
  - exfalso. apply existsb_exists in E as (c' & Hin & Heq).
    apply String.eqb_eq in Heq. subst c'. apply Hnot, list_elem_of_In, Hin.
  - unfold classList_remove. rewrite List.filter_app. cbn [List.filter].
    rewrite String.eqb_refl. cbn [negb]. rewrite app_nil_r.
    apply (classList_remove_absent c cl Hnot).
Qed.

Lemma classList_add_present (c : string) (cl : list string) :
  c ∈ cl -> classList_add c cl = cl.
Proof.
  intros Hin. unfold classList_add.
  destruct (existsb (String.eqb c) cl) eqn:E; [reflexivity|].
  exfalso. apply not_true_iff_false in E. apply E. apply existsb_exists.
  exists c. split; [apply list_elem_of_In; exact Hin|apply String.eqb_refl].
Qed.

Section MarkerProperties.
Context `{JSNumber}.

Lemma set_list_get (type : ListType) (page : Page) :
  set_list type (get_list type page) page = page.
Proof. destruct type, page; reflexivity. Qed.

Lemma set_list_set_list (type : ListType) l l' (page : Page) :
  set_list type l (set_list type l' page) = set_list type l page.
Proof. destruct type; reflexivity. Qed.

Lemma set_ul_ul (l : ProjectList) : set_ul (ul l) l = l.
Proof. destruct l; reflexivity. Qed.

Lemma set_ul_set_ul (u u' : Ul) (l : ProjectList) :
  set_ul u (set_ul u' l) = set_ul u l.
Proof. reflexivity. Qed.

(** X3. [dragLeaveHandler] takes the class [droppable] off the [ul] of its
    list, whatever the event; the other classes, the children, the held
    projects, the other list, the form and the alerts are as they were. *)
Theorem dragLeaveHandler_removes_marker_only type (event : DragEvent) (page : Page) :
  let before := get_list type page in
  let after := get_list type (dragLeaveHandler type event page) in
  ("droppable" ∉ classList (ul after))
  /\ (forall c, c <> "droppable" ->
                c ∈ classList (ul after) <-> c ∈ classList (ul before))
  /\ children (ul after) = children (ul before)
  /\ ul_id (ul after) = ul_id (ul before)
  /\ assignedProjects after = assignedProjects before
  /\ (forall type', type <> type' ->
        get_list type' (dragLeaveHandler type event page) = get_list type' page)
  /\ projectInput (dragLeaveHandler type event page) = projectInput page
  /\ alerts (dragLeaveHandler type event page) = alerts page.
Proof.
  intros before after. subst before after. unfold dragLeaveHandler.
  rewrite get_set_list. cbn [set_ul ul classList children ul_id assignedProjects].
  split; [apply classList_remove_not_elem|].
  split; [intros c Hc; apply classList_remove_other; exact Hc|].
  split; [reflexivity|]. split; [reflexivity|]. split; [reflexivity|].
  split; [intros type' Hne; apply get_set_list_other; exact Hne|].
  destruct type; split; reflexivity.
Qed.

Lemma dragLeaveHandler_unmarked type (event : DragEvent) (page : Page) :
  "droppable" ∉ classList (ul (get_list type page)) ->
  dragLeaveHandler type event page = page.
Proof.
  intros Hnot. unfold dragLeaveHandler.
  rewrite (classList_remove_absent _ _ Hnot).
  replace (mkUl (ul_id (ul (get_list type page)))
                (classList (ul (get_list type page)))
                (children (ul (get_list type page))))
    with (ul (get_list type page)) by (destruct (ul (get_list type page)); reflexivity).
  rewrite set_ul_ul. apply set_list_get.
Qed.

(** X4. A list that does not have the marker is, after a [dragover] and the
    [dragleave] that follows, the page it was: this holds whether the
    [dragover] was accepted or not. *)
Theorem dragLeave_undoes_dragOver type (over leave : DragEvent) (page : Page) :
  "droppable" ∉ classList (ul (get_list type page)) ->
  dragLeaveHandler type leave (snd (dragOverHandler type over page)) = page.
Proof.
  intros Hnot. unfold dragOverHandler.
  destruct (dataTransfer over) as [dt|];
    [|apply dragLeaveHandler_unmarked; exact Hnot].
  destruct (types dt !! 0) as [first|];
    [|apply dragLeaveHandler_unmarked; exact Hnot].
  destruct (String.eqb first "text/plain");
    [|apply dragLeaveHandler_unmarked; exact Hnot].
  cbn [snd]. unfold dragLeaveHandler. rewrite get_set_list.
  cbn [set_ul ul classList children ul_id].
  rewrite (classList_remove_add _ _ Hnot), set_list_set_list.
  replace (mkUl (ul_id (ul (get_list type page)))
                (classList (ul (get_list type page)))
                (children (ul (get_list type page))))
    with (ul (get_list type page)) by (destruct (ul (get_list type page)); reflexivity).
  rewrite set_ul_set_ul, set_ul_ul. apply set_list_get.
Qed.

(** X5. The platform sends [dragover] again and again while the pointer is
    over a list: a second [dragover] on the result of the first changes
    nothing more, the marker is there once. *)
Theorem dragOverHandler_idempotent type (event : DragEvent) (page : Page) :
  let r := dragOverHandler type event page in
  dragOverHandler type (fst r) (snd r) = r.
Proof.
  intros r. subst r. unfold dragOverHandler.
  destruct (dataTransfer event) as [dt|] eqn:Edt; cbn [fst snd];
    [|rewrite Edt; reflexivity].
  destruct (types dt !! 0) as [first|] eqn:Et; cbn [fst snd];
    [|rewrite Edt, Et; reflexivity].
  destruct (String.eqb first "text/plain") eqn:Ef; cbn [fst snd];
    [|rewrite Edt, Et, Ef; reflexivity].
  cbn [preventDefault dataTransfer]. rewrite Edt, Et, Ef.
  rewrite get_set_list.
  cbn [set_ul ul classList children ul_id assignedProjects heading].
  rewrite (classList_add_present "droppable"
             (classList_add "droppable" (classList (ul (get_list type page)))))
    by apply classList_add_elem.
  rewrite set_list_set_list. reflexivity.
Qed.

End MarkerProperties.

(** ** The lists and the store *)

Lemma filter_partition_length {A : Type} (f g : A -> bool) (l : list A) :
  (forall x, g x = negb (f x)) ->
  length (List.filter f l) + length (List.filter g l) = length l.
Proof.
  intros Hg. induction l as [|x l IH]; [reflexivity|].
  cbn [List.filter]. rewrite Hg. destruct (f x); cbn [negb length]; lia.
Qed.

Lemma filter_partition_perm {A : Type} (f g : A -> bool) (l : list A) :
  (forall x, g x = negb (f x)) ->
  List.filter f l ++ List.filter g l ≡ₚ l.
Proof.
  intros Hg. induction l as [|x l IH]; [reflexivity|].
  cbn [List.filter]. rewrite Hg. destruct (f x); cbn [negb].
  - cbn [app]. constructor. exact IH.
  - rewrite <- Permutation_middle. constructor. exact IH.
Qed.

Section ListsAndStore.
Context `{JSNumber}.

Lemma matches_finished (pr : Project) :
  matches finished pr = negb (matches active pr).
Proof. unfold matches. destruct (status pr); reflexivity. Qed.

(** X6. Rendering is clear and rebuild: to render a list twice in the same
    heap is to render it once, no child is doubled. *)
Theorem renderProjects_idempotent type (h : Heap) (page : Page) :
  renderProjects type h (renderProjects type h page) = renderProjects type h page.
Proof.
  unfold renderProjects at 1. rewrite renderProjects_spec. cbv zeta.
  cbn [assignedProjects heading ul ul_id classList set_ul].
  rewrite fold_newProjectItem. cbn [ul_id classList children app].
  unfold renderProjects. rewrite set_list_set_list, fold_newProjectItem.
  reflexivity.
Qed.

(** X7. The listener of a list allocates one array and nothing else: the
    objects and the arrays that exist are as they were; on the page it
    changes the held projects and the children of its own list only, not
    the marker, the id or the heading of that list, nor the other list, the
    form or the alerts. *)
Theorem listListener_changes_own_list_only type (x : addr) (h : Heap) (page : Page) :
  let r := listListener type x (h, page) in
  objects (fst r) = objects h
  /\ length (arrays (fst r)) = S (length (arrays h))
  /\ (forall a, a < length (arrays h) -> contents a (fst r) = contents a h)
  /\ classList (ul (get_list type (snd r))) = classList (ul (get_list type page))
  /\ ul_id (ul (get_list type (snd r))) = ul_id (ul (get_list type page))
  /\ heading (get_list type (snd r)) = heading (get_list type page)
  /\ (forall type', type <> type' -> get_list type' (snd r) = get_list type' page)
  /\ projectInput (snd r) = projectInput page
  /\ alerts (snd r) = alerts page.
Proof.
  intros r. subst r.
  split; [reflexivity|]. split.
  { rewrite listListener_heap. cbn [arrays]. rewrite length_app. cbn [length]. lia. }
  split.
  { intros a Ha. rewrite listListener_heap. unfold contents. cbn [arrays].
    rewrite lookup_app_l by exact Ha. reflexivity. }
  unfold listListener. cbn [fst snd new_array].
  rewrite renderProjects_spec, get_set_list. cbv zeta.
  cbn [assignedProjects heading ul ul_id classList].
  split; [reflexivity|]. split; [reflexivity|]. split; [reflexivity|].
  split.
  { intros type' Hne. unfold renderProjects.
    rewrite !get_set_list_other by exact Hne. reflexivity. }
  unfold renderProjects. destruct type; split; reflexivity.
Qed.

(** X8. On a page whose listeners are the two lists, after [addProject] the
    active list shows what it showed of the store and then the new project,
    and the finished list shows the finished projects of the store, without
    the new one. *)
Theorem addProject_shows_new_project_last (st : ProjectState Page) random t d p
    (s : Heap * Page) :
  listeners st = [listListener active; listListener finished] ->
  projects st < length (arrays (fst s)) ->
  closed (projects st) (fst s) ->
  let r := addProject st random t d p s in
  let old := items (projects st) (fst s) in
  map element (children (ul (activeProjectList (snd (fst r)))))
    = map newLi (List.filter (matches active) old)
        ++ [newLi (mkProject (num_toString random) t d p Active)]
  /\ map element (children (ul (finishedProjectList (snd (fst r)))))
     = map newLi (List.filter (matches finished) old).
Proof.
  intros Hls Ha Hcl r old. subst r old.
  pose proof (addProject_lists_show_store st random t d p s active Hls Ha Hcl)
    as Va.
  pose proof (addProject_lists_show_store st random t d p s finished Hls Ha Hcl)
    as Vf.
  cbv zeta in Va, Vf. cbn [get_list] in Va, Vf. split.
  - rewrite Va, List.filter_app, map_app. reflexivity.
  - rewrite Vf, List.filter_app.
    cbn [List.filter project_of matches status status_eqb].
    rewrite app_nil_r. reflexivity.
Qed.

(** X9. On such a page, after [addProject] every item of the store is shown
    by exactly one of the two lists: together the children of the lists are
    the views of the items of the store, up to their order. *)
Theorem addProject_lists_partition_store (st : ProjectState Page) random t d p
    (s : Heap * Page) :
  listeners st = [listListener active; listListener finished] ->
  projects st < length (arrays (fst s)) ->
  closed (projects st) (fst s) ->
  let r := addProject st random t d p s in
  let shown := children (ul (activeProjectList (snd (fst r))))
               ++ children (ul (finishedProjectList (snd (fst r)))) in
  map element shown ≡ₚ map newLi (items (projects st) (fst (fst r)))
  /\ length shown = length (items (projects st) (fst (fst r))).
Proof.
  intros Hls Ha Hcl r shown.
  assert (Hla : Forall (leaves_alone (projects st)) (listeners st)).
  { rewrite Hls. apply Forall_cons. split; [apply listListener_leaves_alone|].
    apply Forall_cons. split; [apply listListener_leaves_alone|].
    apply Forall_nil_2. }
  destruct (addProject_spec st random t d p s Ha Hcl Hla) as (_ & Ai & _).
  fold r in Ai. rewrite Ai.
  assert (Hm : map element shown
               = map newLi (List.filter (matches active)
                              (items (projects st) (fst s)
                                 ++ [project_of (random, t, d, p)]))
                 ++ map newLi (List.filter (matches finished)
                                 (items (projects st) (fst s)
                                    ++ [project_of (random, t, d, p)]))).
  { pose proof (addProject_lists_show_store st random t d p s active Hls Ha Hcl)
      as Va.
    pose proof (addProject_lists_show_store st random t d p s finished Hls Ha Hcl)
      as Vf.
    cbv zeta in Va, Vf. cbn [get_list] in Va, Vf.
    subst shown r. rewrite map_app, Va, Vf. reflexivity. }
  assert (Hp : map element shown
               ≡ₚ map newLi (items (projects st) (fst s)
                               ++ [project_of (random, t, d, p)])).
  { rewrite Hm, <- map_app. apply Permutation_map.
    apply filter_partition_perm. apply matches_finished. }
  split; [exact Hp|].
  apply Permutation_length in Hp. rewrite !length_map in Hp. exact Hp.
Qed.

End ListsAndStore.

(** ** Listeners, the singleton and the attachment *)

Section ListenersAndSingleton.
Context `{JSNumber} {W : Type}.

Lemma notify_snoc (ls : list (Listener W)) (f : Listener W) (a : addr) :
  forall s : Heap * W,
    notify (ls ++ [f]) a s =
      let r := notify ls a s in
      let copy := fst (slice a (fst (fst r))) in
      let h1 := snd (slice a (fst (fst r))) in
      (f copy (h1, snd (fst r)), snd r ++ [mkCall W f copy h1]).
Proof.
  induction ls as [|g ls IH]; intros s.
  - cbn [app]. rewrite notify_cons. reflexivity.
  - cbn [app]. rewrite !notify_cons. cbv zeta. rewrite IH. reflexivity.
Qed.

(** X10. A listener that is registered later is called last: [addProject]
    on the store with the new listener does what it does without it, the
    earlier listeners run the same and see the same, and then the new
    listener is called with a copy of its own on the state they left. *)
Theorem addListener_runs_last (st : ProjectState W) (f : Listener W) random t d p
    (s : Heap * W) :
  let r := addProject st random t d p s in
  let copy := fst (slice (projects st) (fst (fst r))) in
  let h1 := snd (slice (projects st) (fst (fst r))) in
  addProject (addListener st f) random t d p s
    = (f copy (h1, snd (fst r)), snd r ++ [mkCall W f copy h1])
  /\ map callee (snd (addProject (addListener st f) random t d p s))
     = map callee (snd r) ++ [f]
  /\ contents copy h1 = contents (projects st) (fst (fst r)).
Proof.
  intros r copy h1. subst r copy h1.
  assert (E : addProject (addListener st f) random t d p s
              = (let r := addProject st random t d p s in
                 let copy := fst (slice (projects st) (fst (fst r))) in
                 let h1 := snd (slice (projects st) (fst (fst r))) in
                 (f copy (h1, snd (fst r)), snd r ++ [mkCall W f copy h1]))).
  { rewrite !addProject_notify. cbn [addListener listeners projects].
    unfold pushed. cbn [projects]. apply notify_snoc. }
  split; [exact E|]. split.
  - rewrite E. cbv zeta. cbn [snd]. rewrite map_app. reflexivity.
  - apply contents_slice.
Qed.

(** X11. [getInstance] makes the store once: the first call allocates an
    empty store, and every call after it gives this same store and
    allocates nothing. *)
Theorem getInstance_singleton (instance : option (ProjectState W)) (h : Heap) :
  let r := getInstance instance h in
  fst (snd r) = Some (fst r)
  /\ getInstance (fst (snd r)) (snd (snd r)) = r
  /\ (instance = None ->
      listeners (fst r) = []
      /\ projects (fst r) = length (arrays h)
      /\ contents (projects (fst r)) (snd (snd r)) = []
      /\ objects (snd (snd r)) = objects h
      /\ forall a, a < length (arrays h) -> contents a (snd (snd r)) = contents a h)
  /\ (forall st, instance = Some st -> fst r = st /\ snd (snd r) = h).
Proof.
  intros r. subst r. destruct instance as [st|]; cbn [getInstance].
  - split; [reflexivity|]. split; [reflexivity|]. split; [discriminate|].
    intros st' E. injection E as <-. split; reflexivity.
  - unfold newProjectState. cbn [new_array fst snd].
    split; [reflexivity|]. split; [reflexivity|]. split.
    + intros _. split; [reflexivity|]. split; [reflexivity|].
      split; [apply (contents_new_array_new [] h)|]. split; [reflexivity|].
      intros a Ha. apply (contents_new_array_old [] h a Ha).
    + intros st E. discriminate.
Qed.

End ListenersAndSingleton.

(** X13. Components that are attached at the start of a host come before
    the children that the host had, the last one constructed first; those
    attached at the end come after them, in the order of construction.
    Every construction adds one child. *)
Theorem attach_all_order {A : Type} (constructions : list (bool * A))
    (children : list A) :
  attach_all constructions children
    = rev (map snd (List.filter fst constructions))
      ++ children
      ++ map snd (List.filter (fun c => negb (fst c)) constructions)
  /\ length (attach_all constructions children)
     = length children + length constructions.
Proof.
  revert children. unfold attach_all.
  induction constructions as [|[b e] cs IH]; intros children.
  - cbn. rewrite app_nil_r. split; [reflexivity|lia].
  - cbn [fold_left fst snd List.filter].
    destruct (IH (attach b e children)) as [IH1 IH2]. split.
    + rewrite IH1. destruct b; cbn [attach negb map rev fst snd];
        rewrite <- !app_assoc; reflexivity.
    + rewrite IH2. destruct b; cbn [attach length]; [|rewrite length_app];
        cbn [length]; lia.
Qed.

(** ** The form *)

Section FormProperties.
Context `{JSNumber}.

(** X1. [gatherUserInput] refuses, with one alert and no value, exactly
    when the title is blank, or the description is blank and at least five
    characters long; the number of people plays no part. In every other
    case it returns the title and the description as typed and the number
    read from the people field, and leaves the page as it is. *)
Theorem gatherUserInput_refuses_blank_only (page : Page) :
  toString_never_blank ->
  let title := titleInputElement (projectInput page) in
  let description := descriptionInputElement (projectInput page) in
  let people := peopleInputElement (projectInput page) in
  let refused :=
    blank title
    || (blank description
        && num_geb (num_of_nat (String.length description)) (num_of_nat 5)) in
  (refused = true ->
     gatherUserInput page = (None, alert "Invalid input, please try again!" page))
  /\ (refused = false ->
      gatherUserInput page
      = (Some (title, description, num_of_string people), page)).
Proof.
  intros Hblank title description people refused.
  pose proof (gatherUserInput_refuses Hblank page) as E. cbv zeta in E.
  fold title description people in E. fold refused in E.
  split; intros Hr; rewrite Hr in E; exact E.
Qed.

(** X2. [submitHandler], for any store. A refused submission leaves the
    heap, the lists and the typed values as they are, calls no listener and
    adds one alert. An accepted one is handed to [addProject] with the
    values as typed, and then the three fields of the form are empty; the
    lists and the alerts are as [addProject] leaves them. *)
Theorem submitHandler_outcome (st : ProjectState Page) random (h : Heap)
    (page : Page) :
  toString_never_blank ->
  let title := titleInputElement (projectInput page) in
  let description := descriptionInputElement (projectInput page) in
  let people := peopleInputElement (projectInput page) in
  let refused :=
    blank title
    || (blank description
        && num_geb (num_of_nat (String.length description)) (num_of_nat 5)) in
  let r := submitHandler st random (h, page) in
  let added :=
    addProject st random title description (num_of_string people) (h, page) in
  (refused = true ->
     r = ((h, alert "Invalid input, please try again!" page), [])
     /\ projectInput (snd (fst r)) = projectInput page
     /\ activeProjectList (snd (fst r)) = activeProjectList page
     /\ finishedProjectList (snd (fst r)) = finishedProjectList page
     /\ alerts (snd (fst r)) = alerts page ++ ["Invalid input, please try again!"])
  /\ (refused = false ->
      fst (fst r) = fst (fst added)
      /\ snd r = snd added
      /\ projectInput (snd (fst r)) = mkProjectInput "" "" ""
      /\ activeProjectList (snd (fst r)) = activeProjectList (snd (fst added))
      /\ finishedProjectList (snd (fst r)) = finishedProjectList (snd (fst added))
      /\ alerts (snd (fst r)) = alerts (snd (fst added))).
Proof.
  intros Hblank title description people refused r added.
  pose proof (gatherUserInput_refuses Hblank page) as E. cbv zeta in E.
  fold title description people in E. fold refused in E.
  subst r. unfold submitHandler. cbn [fst snd]. split; intros Hr; rewrite Hr in E.
  - rewrite E. repeat split.
  - rewrite E. fold added. destruct added as [[h2 page2] calls].
    repeat split.
Qed.

End FormProperties.

(** ** [validate] on integers *)

Section IntegerBounds.
Local Existing Instance IntNumber_JSNumber.

(** X12. Without [required], on integer values the bounds of [validate]
    are inclusive: a number passes exactly when it lies between [min] and
    [max], a string exactly when its length lies between [minLength] and
    [maxLength]. The value [NaN] fails as soon as [min] or [max] is
    present. *)
Theorem validate_integer_bounds :
  (forall n lo hi : Z,
      validate
        (mkValidatable (VNumber (Some n)) None None None
                       (Some (Some lo)) (Some (Some hi))) = true
      <-> (lo <= n <= hi)%Z)
  /\ (forall (s : string) (lo hi : nat),
      validate
        (mkValidatable (VString s) None (Some (Some (Z.of_nat lo)))
                       (Some (Some (Z.of_nat hi))) None None) = true
      <-> lo <= String.length s <= hi)
  /\ (forall req ml xl lo hi,
      lo <> None \/ hi <> None ->
      validate
        (mkValidatable (VNumber None) req ml xl lo hi) = false).
Proof.
  split; [|split].
  - intros n lo hi. unfold validate. cbn.
    rewrite andb_true_iff, !Z.leb_le. tauto.
  - intros s lo hi. unfold validate. cbn.
    rewrite andb_true_iff, !Z.leb_le. lia.
  - intros req ml xl lo hi Hb. unfold validate. cbn.
    destruct (truthy req), ml, xl, lo as [[lo|]|], hi as [[hi|]|];
      cbn; try reflexivity; destruct Hb; congruence.
Qed.

End IntegerBounds.

(** ** The page after a sequence of additions *)

Section PageAfterAdditions.
Context `{JSNumber}.

Lemma lists_leave_alone (st : ProjectState Page) (a : addr) :
  listeners st = [listListener active; listListener finished] ->
  Forall (leaves_alone a) (listeners st).
Proof.
  intros ->. apply Forall_cons. split; [apply listListener_leaves_alone|].
  apply Forall_cons. split; [apply listListener_leaves_alone|].
  apply Forall_nil_2.
Qed.

Lemma addProjects_lists_show_store (st : ProjectState Page) cs : forall c s type,
  listeners st = [listListener active; listListener finished] ->
  projects st < length (arrays (fst s)) ->
  closed (projects st) (fst s) ->
  map element
      (children (ul (get_list type (snd (fst (addProjects st (c :: cs) s))))))
  = map newLi
      (List.filter (matches type)
         (items (projects st) (fst s) ++ map project_of (c :: cs))).
Proof.
  induction cs as [|c' cs IH]; intros c s type Hls Ha Hcl.
  - rewrite addProjects_cons. cbv zeta. cbn [addProjects fst snd map].
    destruct c as [[[random t] d] p]. cbn [fst snd].
    apply (addProject_lists_show_store st random t d p s type Hls Ha Hcl).
  - rewrite addProjects_cons. cbv zeta. cbn [fst].
    destruct c as [[[random t] d] p]. cbn [fst snd].
    destruct (addProject_spec st random t d p s Ha Hcl
                (lists_leave_alone st (projects st) Hls))
      as (_ & Ai & Acl & Al & _).
    rewrite IH; [|exact Hls|lia|exact Acl].
    rewrite Ai, <- app_assoc. reflexivity.
Qed.

(** X14. On a page whose listeners are the two lists, after one or more
    calls of [addProject] on an empty store the active list shows all the
    projects added, in the order of the calls, and the finished list shows
    none. *)
Theorem added_projects_show_as_active (st : ProjectState Page) c cs
    (s : Heap * Page) :
  listeners st = [listListener active; listListener finished] ->
  projects st < length (arrays (fst s)) ->
  contents (projects st) (fst s) = [] ->
  let r := addProjects st (c :: cs) s in
  map element (children (ul (activeProjectList (snd (fst r)))))
    = map newLi (map project_of (c :: cs))
  /\ children (ul (finishedProjectList (snd (fst r)))) = [].
Proof.
  intros Hls Ha He r.
  assert (Hcl : closed (projects st) (fst s)).
  { unfold closed. rewrite He. constructor. }
  assert (Hi : items (projects st) (fst s) = []).
  { unfold items. rewrite He. reflexivity. }
  pose proof (addProjects_lists_show_store st cs c s active Hls Ha Hcl) as Va.
  pose proof (addProjects_lists_show_store st cs c s finished Hls Ha Hcl) as Vf.
  rewrite Hi in Va, Vf. cbn [app get_list] in Va, Vf. fold r in Va, Vf.
  assert (Hact : forall l : list (number * string * string * number),
             List.filter (matches active) (map project_of l) = map project_of l).
  { induction l as [|[[[random t] d] p] l IHl]; [reflexivity|].
    cbn [map List.filter project_of matches status status_eqb]. f_equal. exact IHl. }
  assert (Hfin : forall l : list (number * string * string * number),
             List.filter (matches finished) (map project_of l) = []).
  { induction l as [|[[[random t] d] p] l IHl]; [reflexivity|].
    cbn [map List.filter project_of matches status status_eqb]. exact IHl. }
  split.
  - rewrite Va, Hact. reflexivity.
  - rewrite Hfin in Vf. cbn [map] in Vf.
    destruct (children (ul (finishedProjectList (snd (fst r)))));
      [reflexivity|discriminate].
Qed.

End PageAfterAdditions.

(** ** The further properties at the board *)

Section BoardInstances.
Local Existing Instance IntNumber_JSNumber.

Lemma start_closed : closed (projects board) (fst start).
Proof. unfold closed. cbn. constructor. Qed.

(** The form with a short description and eleven people is accepted. *)
Lemma gatherUserInput_refuses_blank_only_witness :
  let page := snd (fill "Build API" "abc" "11" start) in
  toString_never_blank
  /\ gatherUserInput page = (Some ("Build API", "abc", Some 11%Z), page).
Proof.
  intros page. split; [exact IntNumber_toString_never_blank|].
  exact (proj2 (gatherUserInput_refuses_blank_only page
                  IntNumber_toString_never_blank) eq_refl).
Defined.

(** The form with a blank title is refused. *)
Lemma submitHandler_outcome_witness :
  let s := fill "  " "Implement REST endpoints" "3" start in
  toString_never_blank
  /\ submitHandler board (Some 0%Z) s
     = ((fst s, alert "Invalid input, please try again!" (snd s)), []).
Proof.
  intros s. split; [exact IntNumber_toString_never_blank|].
  exact (proj1 (proj1 (submitHandler_outcome board (Some 0%Z) (fst s) (snd s)
                         IntNumber_toString_never_blank) eq_refl)).
Defined.

(** A drag of plain text over the active list of the new page, then away. *)
Lemma dragLeave_undoes_dragOver_witness :
  let over := mkDragEvent (Some (mkDataTransfer [("text/plain", "0")] "move"))
                          false in
  ("droppable" ∉ classList (ul (get_list active (snd start))))
  /\ ("droppable"
      ∈ classList (ul (get_list active (snd (dragOverHandler active over (snd start))))))
  /\ dragLeaveHandler active over (snd (dragOverHandler active over (snd start)))
     = snd start.
Proof.
  intros over.
  assert (Hnot : "droppable" ∉ classList (ul (get_list active (snd start)))).
  { cbn. apply not_elem_of_nil. }
  split; [exact Hnot|]. split; [cbn; left|].
  exact (dragLeave_undoes_dragOver active over over (snd start) Hnot).
Defined.

(** The first project on the new page. *)
Lemma addProject_shows_new_project_last_witness :
  let r := addProject board (Some 0%Z) "Build API" "Implement REST endpoints"
             (Some 3%Z) start in
  listeners board = [listListener active; listListener finished]
  /\ projects board < length (arrays (fst start))
  /\ closed (projects board) (fst start)
  /\ map element (children (ul (activeProjectList (snd (fst r)))))
     = [mkLi "0" "Build API" "3 persons assigned" "Implement REST endpoints"].
Proof.
  intros r.
  split; [exact bootstrap_listeners|]. split; [exact board_allocated|].
  split; [exact start_closed|].
  exact (proj1 (addProject_shows_new_project_last board (Some 0%Z) "Build API"
                  "Implement REST endpoints" (Some 3%Z) start
                  bootstrap_listeners board_allocated start_closed)).
Defined.

Lemma addProject_lists_partition_store_witness :
  let r := addProject board (Some 0%Z) "Build API" "Implement REST endpoints"
             (Some 3%Z) start in
  listeners board = [listListener active; listListener finished]
  /\ projects board < length (arrays (fst start))
  /\ closed (projects board) (fst start)
  /\ length (children (ul (activeProjectList (snd (fst r))))
             ++ children (ul (finishedProjectList (snd (fst r)))))
     = length (items (projects board) (fst (fst r))).
Proof.
  intros r.
  split; [exact bootstrap_listeners|]. split; [exact board_allocated|].
  split; [exact start_closed|].
  exact (proj2 (addProject_lists_partition_store board (Some 0%Z) "Build API"
                  "Implement REST endpoints" (Some 3%Z) start
                  bootstrap_listeners board_allocated start_closed)).
Defined.

(** The two projects of the scenario on the new page. *)
Lemma added_projects_show_as_active_witness :
  let c1 := (Some 0%Z, "Build API", "Implement REST endpoints", Some 3%Z) in
  let c2 := (Some 1%Z, "Design UI", "Mockups and wireframes", Some 2%Z) in
  let r := addProjects board [c1; c2] start in
  listeners board = [listListener active; listListener finished]
  /\ projects board < length (arrays (fst start))
  /\ contents (projects board) (fst start) = []
  /\ map element (children (ul (activeProjectList (snd (fst r)))))
     = [mkLi "0" "Build API" "3 persons assigned" "Implement REST endpoints";
        mkLi "1" "Design UI" "2 persons assigned" "Mockups and wireframes"]
  /\ children (ul (finishedProjectList (snd (fst r)))) = [].
Proof.
  intros c1 c2 r.
  split; [exact bootstrap_listeners|]. split; [exact board_allocated|].
  split; [reflexivity|].
  exact (added_projects_show_as_active board c1 [c2] start
           bootstrap_listeners board_allocated eq_refl).
Defined.

End BoardInstances.
